(** * langchain_with_mcp: the tool server, its storage and weather adapters

    A shallow embedding of [db_helpers.py], [api_helpers.py] and [server.py].
    Coroutines are run to completion one at a time, so every [async def] is a
    function; what a coroutine does to the outside world is made explicit:
    the PostgreSQL server is a state that is threaded through the storage
    adapters, the weather service is a function from URLs to outcomes of a
    GET.  Python exceptions are values of [python.result].  Log lines are
    dropped, but the expressions interpolated into them are evaluated, since
    an f-string is built before [logging] looks at the level. *)

From Stdlib Require Import ZArith Ascii String List Bool Lia.
From stdpp Require Import base option list strings gmap pretty.

Set Warnings "-register-all".

(** ** The fragment of Python the three files rely on *)

Module python.

(** Exception classes that occur.  [CancelledError] derives from
    [BaseException] only; every other class derives from [Exception]. *)
Inductive exn : Set :=
  | KeyError
  | TypeError
  | AttributeError
  | ValueError
  | JSONDecodeError      (* json.JSONDecodeError, a ValueError *)
  | HTTPStatusError      (* httpx.HTTPStatusError *)
  | RequestError         (* httpx.RequestError: transport failures *)
  | TimeoutException     (* httpx.TimeoutException, a RequestError *)
  | PostgresError        (* asyncpg.PostgresError, OSError on connect *)
  | CancelledError.      (* asyncio.CancelledError *)

Definition is_Exception (e : exn) : bool :=
  match e with CancelledError => false | _ => true end.

Definition is_RequestError (e : exn) : bool :=
  match e with RequestError | TimeoutException => true | _ => false end.

Definition is_HTTPStatusError (e : exn) : bool :=
  match e with HTTPStatusError => true | _ => false end.

Definition is_JSONDecodeError (e : exn) : bool :=
  match e with JSONDecodeError => true | _ => false end.

(** The outcome of evaluating an expression or running a function. *)
Inductive result (A : Type) : Type :=
  | Return (a : A)
  | Raise (e : exn).
Arguments Return {A} a.
Arguments Raise {A} e.

Definition bind {A B : Type} (r : result A) (k : A -> result B) : result B :=
  match r with
  | Return a => k a
  | Raise e => Raise e
  end.

(** A float as these programs observe it: by truth testing and by [str]. *)
Record pyfloat : Set := { float_nonzero : bool; float_str : string }.

(** Values: what [json.loads] builds and what a table cell holds.  A dict
    is kept as its items in insertion order. *)
Inductive value : Set :=
  | VNone
  | VBool (b : bool)
  | VInt (n : Z)
  | VFloat (f : pyfloat)
  | VStr (s : string)
  | VList (l : list value)
  | VDict (d : list (string * value)).

Definition nl : ascii := "010"%char.
Definition tab : ascii := "009"%char.
Definition cr : ascii := "013"%char.
Definition squote : ascii := "039"%char.
Definition dquote : ascii := "034"%char.
Definition backslash : ascii := "092"%char.

Definition str1 (c : ascii) : string := String c EmptyString.

(** [bool(v)] *)
Definition truthy (v : value) : bool :=
  match v with
  | VNone => false
  | VBool b => b
  | VInt n => negb (n =? 0)%Z
  | VFloat f => float_nonzero f
  | VStr EmptyString => false
  | VStr (String _ _) => true
  | VList [] => false
  | VList (_ :: _) => true
  | VDict [] => false
  | VDict (_ :: _) => true
  end.

(** [any(l)] *)
Definition any (l : list value) : bool := existsb truthy l.

(** Lookup of a key among the items of a dict. *)
Fixpoint dict_lookup (k : string) (d : list (string * value)) : option value :=
  match d with
  | [] => None
  | (k', v) :: d' => if String.eqb k k' then Some v else dict_lookup k d'
  end.

(** [needle in hay] on two strings. *)
Fixpoint str_contains (needle hay : string) : bool :=
  String.prefix needle hay
  || match hay with
     | EmptyString => false
     | String _ hay' => str_contains needle hay'
     end.

Definition value_is_str (s : string) (v : value) : bool :=
  match v with VStr s' => String.eqb s s' | _ => false end.

(** [k in v] for a string [k] *)
Definition contains (k : string) (v : value) : result bool :=
  match v with
  | VDict d => Return (match dict_lookup k d with Some _ => true | None => false end)
  | VList l => Return (existsb (value_is_str k) l)
  | VStr s => Return (str_contains k s)
  | _ => Raise TypeError
  end.

(** [v[k]] for a string [k] *)
Definition getitem (v : value) (k : string) : result value :=
  match v with
  | VDict d => match dict_lookup k d with Some x => Return x | None => Raise KeyError end
  | _ => Raise TypeError
  end.

(** [v.get(k, default)] *)
Definition get (v : value) (k : string) (default : value) : result value :=
  match v with
  | VDict d => Return (match dict_lookup k d with Some x => x | None => default end)
  | _ => Raise AttributeError
  end.

(** *** Characters

    A [str] is a sequence of characters; it is kept here as the bytes of
    its UTF-8 form.  A byte below 128 is a character by itself, a byte from
    128 up starts a character or, when it is one of 128 to 191, continues
    the character before it. *)

Definition is_ascii (c : ascii) : bool := (nat_of_ascii c <? 128)%nat.

Definition is_continuation (c : ascii) : bool :=
  (128 <=? nat_of_ascii c)%nat && (nat_of_ascii c <? 192)%nat.

Definition continues (s : string) : bool :=
  match s with
  | EmptyString => false
  | String c _ => is_continuation c
  end.

(** The characters of [s], each as the string of its bytes. *)
Fixpoint characters (s : string) : list string :=
  match s with
  | EmptyString => []
  | String c s' =>
      match characters s' with
      | ch :: rest =>
          if negb (is_ascii c) && continues s' then String c ch :: rest
          else str1 c :: ch :: rest
      | [] => [str1 c]
      end
  end.

(** The first [n] characters of [s]. *)
Definition first_characters (n : nat) (s : string) : string :=
  String.concat EmptyString (firstn n (characters s)).

(** The code point a character stands for. *)
Definition code_point (ch : string) : N :=
  match ch with
  | EmptyString => 0%N
  | String c rest =>
      let n := N_of_ascii c in
      let lead :=
        if (n <? 128)%N then n
        else if (n <? 224)%N then (n mod 32)%N
        else if (n <? 240)%N then (n mod 16)%N
        else (n mod 8)%N in
      fold_left (fun cp b => (cp * 64 + N_of_ascii b mod 64)%N)
                (list_ascii_of_string rest) lead
  end.

(** [len(v)] *)
Definition len (v : value) : result nat :=
  match v with
  | VStr s => Return (length (characters s))
  | VList l => Return (length l)
  | VDict d => Return (length d)
  | _ => Raise TypeError
  end.

Definition chars (s : string) : list value := map VStr (characters s).

(** The sequence a [for] loop or a comprehension walks through. *)
Definition iter (v : value) : result (list value) :=
  match v with
  | VList l => Return l
  | VDict d => Return (map (fun kv => VStr (fst kv)) d)
  | VStr s => Return (chars s)
  | _ => Raise TypeError
  end.

(** [v[:n]].  A dict has no slices: the slice is looked up as a key. *)
Definition slice_to (n : nat) (v : value) : result value :=
  match v with
  | VList l => Return (VList (firstn n l))
  | VStr s => Return (VStr (first_characters n s))
  | VDict _ => Raise KeyError
  | _ => Raise TypeError
  end.

(** [sep.join(l)] *)
Definition join (sep : string) (l : list string) : string := String.concat sep l.

(** *** [repr] and [str] *)

Definition hex_digit (n : nat) : ascii :=
  match n with
  | 0 => "0" | 1 => "1" | 2 => "2" | 3 => "3" | 4 => "4" | 5 => "5" | 6 => "6"
  | 7 => "7" | 8 => "8" | 9 => "9" | 10 => "a" | 11 => "b" | 12 => "c"
  | 13 => "d" | 14 => "e" | _ => "f"
  end%char.

Fixpoint has_char (c : ascii) (s : string) : bool :=
  match s with
  | EmptyString => false
  | String c' s' => Ascii.eqb c c' || has_char c s'
  end.

(** What the interpreter knows of Unicode and these programs depend on:
    which code points [repr] copies and which it escapes
    ([str.isprintable] of a character).  Below 128 the question does not
    arise, [repr] has its own rule there. *)
Class Unicode : Type := { printable : N -> bool }.

Fixpoint hex (digits : nat) (n : N) : string :=
  match digits with
  | O => EmptyString
  | S digits' =>
      hex digits' (n / 16)%N +:+ str1 (hex_digit (N.to_nat (n mod 16)%N))
  end.

Section representations.
Context {unicode : Unicode}.

(** One character of a string as [repr] writes it, inside quotes [q]. *)
Definition repr_char (q : ascii) (ch : string) : string :=
  let cp := code_point ch in
  if String.eqb ch (str1 q) || String.eqb ch (str1 backslash) then String backslash ch
  else if String.eqb ch (str1 tab) then String backslash (str1 "t"%char)
  else if String.eqb ch (str1 nl) then String backslash (str1 "n"%char)
  else if String.eqb ch (str1 cr) then String backslash (str1 "r"%char)
  else if (cp <? 32)%N || (cp =? 127)%N then
    String backslash (String "x"%char (hex 2 cp))
  else if (cp <? 127)%N then ch
  else if printable cp then ch
  else if (cp <? 256)%N then String backslash (String "x"%char (hex 2 cp))
  else if (cp <? 65536)%N then String backslash (String "u"%char (hex 4 cp))
  else String backslash (String "U"%char (hex 8 cp)).

Definition repr_str (s : string) : string :=
  let q := if has_char squote s && negb (has_char dquote s) then dquote else squote in
  String q (String.concat EmptyString (map (repr_char q) (characters s)) +:+ str1 q).

Fixpoint repr (v : value) : string :=
  match v with
  | VNone => "None"
  | VBool true => "True"
  | VBool false => "False"
  | VInt n => pretty n
  | VFloat f => float_str f
  | VStr s => repr_str s
  | VList l => "[" +:+ join ", " (map repr l) +:+ "]"
  | VDict d =>
      "{" +:+ join ", " (map (fun kv => let '(k, x) := kv in
                                        repr_str k +:+ ": " +:+ repr x) d) +:+ "}"
  end.

(** [str(v)], which is also what [{v}] in an f-string inserts. *)
Definition str (v : value) : string :=
  match v with
  | VStr s => s
  | _ => repr v
  end.

End representations.

(** *** [textwrap.dedent] *)

Definition is_blank (c : ascii) : bool := Ascii.eqb c " "%char || Ascii.eqb c tab.

(** [text.split('\n')] *)
Fixpoint split_lines (text : string) : list string :=
  match text with
  | EmptyString => [EmptyString]
  | String c text' =>
      if Ascii.eqb c nl then EmptyString :: split_lines text'
      else match split_lines text' with
           | line :: lines => String c line :: lines
           | [] => [str1 c]
           end
  end.

Fixpoint all_blank (line : string) : bool :=
  match line with
  | EmptyString => true
  | String c line' => is_blank c && all_blank line'
  end.

Fixpoint leading_blanks (line : string) : string :=
  match line with
  | EmptyString => EmptyString
  | String c line' => if is_blank c then String c (leading_blanks line') else EmptyString
  end.

Fixpoint common_prefix (a b : string) : string :=
  match a, b with
  | String x a', String y b' =>
      if Ascii.eqb x y then String x (common_prefix a' b') else EmptyString
  | _, _ => EmptyString
  end.

Fixpoint strip_prefix (margin line : string) : string :=
  match margin, line with
  | EmptyString, _ => line
  | String x margin', String y line' =>
      if Ascii.eqb x y && String.prefix margin' line' then strip_prefix margin' line'
      else line
  | String _ _, EmptyString => line
  end.

(** Lines of blanks only become empty; the longest run of blanks that
    starts every other line is removed from each of them. *)
Definition dedent (text : string) : string :=
  let lines := map (fun l => if all_blank l then EmptyString else l) (split_lines text) in
  let indents := map leading_blanks (filter (fun l => negb (all_blank l)) lines) in
  match indents with
  | [] => join (str1 nl) lines
  | i :: rest =>
      let margin := fold_left common_prefix rest i in
      join (str1 nl) (map (strip_prefix margin) lines)
  end.

(** [d[k] = v] *)
Fixpoint dict_set (k : string) (v : value) (d : list (string * value))
  : list (string * value) :=
  match d with
  | [] => [(k, v)]
  | (k', v') :: d' =>
      if String.eqb k k' then (k, v) :: d' else (k', v') :: dict_set k v d'
  end.

(** [v.items()] *)
Definition items (v : value) : result (list (string * value)) :=
  match v with
  | VDict d => Return d
  | _ => Raise AttributeError
  end.

(** [try: r except Exception: return fallback] *)
Definition except_Exception {A : Type} (r : result A) (fallback : A) : result A :=
  match r with
  | Return a => Return a
  | Raise e => if is_Exception e then Return fallback else Raise e
  end.

(** A comprehension [[f(x) for x in l]]: the first exception ends it. *)
Fixpoint comprehension {A B : Type} (f : A -> result B) (l : list A) : result (list B) :=
  match l with
  | [] => Return []
  | x :: l' =>
      match f x with
      | Raise e => Raise e
      | Return y =>
          match comprehension f l' with
          | Raise e => Raise e
          | Return ys => Return (y :: ys)
          end
      end
  end.

End python.

Notation "'let*' x ':=' e 'in' k" := (python.bind e (fun x => k))
  (at level 10, x name, e at level 100, k at level 200).

(** ** db_helpers.py: the storage adapters *)

Module db_helpers.
Import python.

(** The columns of [customers] other than the key. *)
Record fields : Set := {
  name : string;
  email : string;
  age : option Z;
  prefer_package : option Z
}.

(** A row of [customers(id, name, email, age, prefer_package)]. *)
Definition record : Set := (Z * fields)%type.

Definition nullable (o : option Z) : value :=
  match o with Some n => VInt n | None => VNone end.

(** [dict(row)]: every column is a key, a NULL cell holds [None]. *)
Definition dict (row : record) : value :=
  VDict [("id", VInt (fst row));
         ("name", VStr (name (snd row)));
         ("email", VStr (email (snd row)));
         ("age", nullable (age (snd row)));
         ("prefer_package", nullable (prefer_package (snd row)))].

(** *** The [ILIKE] of PostgreSQL

    The server lower-cases both operands, character by character and as
    its locale has it, and matches the results as [LIKE] does.  A pattern
    is read left to right: [%] stands for any run of characters, [_] for
    any one character, a backslash makes the character after it stand for
    itself, and a pattern may not end in a lone backslash. *)

Inductive token : Set :=
  | AnyRun
  | AnyOne
  | Exactly (ch : string).

Definition token_of (ch : string) : token :=
  if String.eqb ch "%" then AnyRun
  else if String.eqb ch "_" then AnyOne
  else Exactly ch.

Fixpoint tokens (pattern : list string) : option (list token) :=
  match pattern with
  | [] => Some []
  | ch :: rest =>
      if String.eqb ch (str1 backslash) then
        match rest with
        | [] => None
        | ch' :: rest' =>
            match tokens rest' with
            | Some ts => Some (Exactly ch' :: ts)
            | None => None
            end
        end
      else
        match tokens rest with
        | Some ts => Some (token_of ch :: ts)
        | None => None
        end
  end.

Fixpoint matches (ts : list token) (s : list string) : bool :=
  match ts with
  | [] => match s with [] => true | _ :: _ => false end
  | AnyRun :: ts' =>
      (fix skip (s : list string) : bool :=
         matches ts' s
         || match s with
            | [] => false
            | _ :: s' => skip s'
            end) s
  | AnyOne :: ts' =>
      match s with
      | [] => false
      | _ :: s' => matches ts' s'
      end
  | Exactly ch :: ts' =>
      match s with
      | [] => false
      | ch' :: s' => String.eqb ch ch' && matches ts' s'
      end
  end.

(** The statements the adapters send, with their arguments [$1], [$2], ... *)
Inductive statement : Set :=
  | SelectAll
  | SelectById (customer_id : Z)
  | SelectByName (pattern : string)
  | Insert (name email : string) (age prefer_package : option Z)
  | Update (name email : string) (age : option Z) (customer_id : Z)
           (prefer_package : option Z)
  | Delete (customer_id : Z).

Inductive event : Set :=
  | PoolCreated
  | PoolClosed
  | Sent (s : statement).

(** The database server.  [journal] lists what reached it, newest first. *)
Record postgres : Type := {
  accepts : bool;                   (* create_pool succeeds *)
  rejects : statement -> bool;      (* statements the server answers with an error *)
  folds : string -> string;         (* lower() of the server on one character *)
  customers : gmap Z fields;        (* the table, by primary key *)
  next_id : Z;                      (* the sequence that assigns [id] *)
  journal : list event
}.

Definition note (e : event) (pg : postgres) : postgres :=
  {| accepts := accepts pg; rejects := rejects pg; folds := folds pg;
     customers := customers pg; next_id := next_id pg; journal := e :: journal pg |}.

Definition store (t : gmap Z fields) (pg : postgres) : postgres :=
  {| accepts := accepts pg; rejects := rejects pg; folds := folds pg;
     customers := t; next_id := next_id pg; journal := journal pg |}.

Definition advance (pg : postgres) : postgres :=
  {| accepts := accepts pg; rejects := rejects pg; folds := folds pg;
     customers := customers pg; next_id := (next_id pg + 1)%Z; journal := journal pg |}.

(** The characters of [s], each lower-cased by the server. *)
Definition lowered (pg : postgres) (s : string) : list string :=
  map (folds pg) (characters s).

(** What the server does with one statement: the rows it sends back and the
    command tag, or an error. *)
Definition run (s : statement) (pg : postgres)
  : result (list record * string) * postgres :=
  let pg := note (Sent s) pg in
  if rejects pg s then (Raise PostgresError, pg)
  else
    match s with
    | SelectAll =>
        let rows := map_to_list (customers pg) in
        (Return (rows, "SELECT " +:+ pretty (length rows)), pg)
    | SelectById i =>
        match customers pg !! i with
        | Some f => (Return ([(i, f)], "SELECT 1"), pg)
        | None => (Return ([], "SELECT 0"), pg)
        end
    | SelectByName pattern =>
        match tokens (lowered pg pattern) with
        | None => (Raise PostgresError, pg)
        | Some ts =>
            let rows :=
              List.filter (fun row => matches ts (lowered pg (name (snd row))))
                          (map_to_list (customers pg)) in
            (Return (rows, "SELECT " +:+ pretty (length rows)), pg)
        end
    | Insert n e a p =>
        let i := next_id pg in
        let f := {| name := n; email := e; age := a; prefer_package := p |} in
        match customers pg !! i with
        | Some _ => (Raise PostgresError, advance pg)
        | None => (Return ([(i, f)], "INSERT 0 1"), store (<[i := f]> (customers pg)) (advance pg))
        end
    | Update n e a i p =>
        let f := {| name := n; email := e; age := a; prefer_package := p |} in
        match customers pg !! i with
        | Some _ => (Return ([(i, f)], "UPDATE 1"), store (<[i := f]> (customers pg)) pg)
        | None => (Return ([], "UPDATE 0"), pg)
        end
    | Delete i =>
        match customers pg !! i with
        | Some _ => (Return ([], "DELETE 1"), store (delete i (customers pg)) pg)
        | None => (Return ([], "DELETE 0"), pg)
        end
    end.

(** [conn.fetch], [conn.fetchrow] and [conn.execute] of asyncpg. *)
Definition fetch (s : statement) (pg : postgres) : result (list record) * postgres :=
  let '(r, pg') := run s pg in
  (let* answer := r in Return (fst answer), pg').

Definition fetchrow (s : statement) (pg : postgres) : result (option record) * postgres :=
  let '(r, pg') := run s pg in
  (let* answer := r in Return (head (fst answer)), pg').

Definition execute (s : statement) (pg : postgres) : result string * postgres :=
  let '(r, pg') := run s pg in
  (let* answer := r in Return (snd answer), pg').

Definition create_pool (pg : postgres) : result unit * postgres :=
  if accepts pg then (Return tt, note PoolCreated pg) else (Raise PostgresError, pg).

Definition close (pg : postgres) : postgres := note PoolClosed pg.

(** The pool, or [None]. *)
Definition get_connection_pool (pg : postgres) : result (option unit) * postgres :=
  let '(r, pg') := create_pool pg in
  (except_Exception (let* pool := r in Return (Some pool)) None, pg').

Definition get_customers (pg : postgres) : result value * postgres :=
  let '(pool, pg) := get_connection_pool pg in
  match pool with
  | Raise e => (Raise e, pg)
  | Return None => (Return (VList []), pg)
  | Return (Some _) =>
      let '(rows, pg) := fetch SelectAll pg in
      (except_Exception
         (let* rows := rows in Return (VList (map dict rows)))
         (VList []),
       close pg)
  end.

Definition get_customer_by_id (customer_id : Z) (pg : postgres)
  : result value * postgres :=
  let '(pool, pg) := get_connection_pool pg in
  match pool with
  | Raise e => (Raise e, pg)
  | Return None => (Return VNone, pg)
  | Return (Some _) =>
      let '(row, pg) := fetchrow (SelectById customer_id) pg in
      (except_Exception
         (let* row := row in
          match row with
          | Some row => Return (dict row)
          | None => Return VNone
          end)
         VNone,
       close pg)
  end.

Definition get_customer_by_name (name : string) (pg : postgres)
  : result value * postgres :=
  let '(pool, pg) := get_connection_pool pg in
  match pool with
  | Raise e => (Raise e, pg)
  | Return None => (Return (VList []), pg)
  | Return (Some _) =>
      let search_pattern := "%" +:+ name +:+ "%" in
      let '(rows, pg) := fetch (SelectByName search_pattern) pg in
      (except_Exception
         (let* rows := rows in Return (VList (map dict rows)))
         (VList []),
       close pg)
  end.

Definition add_customer (name email : string) (age prefer_package : option Z)
    (pg : postgres) : result value * postgres :=
  let '(pool, pg) := get_connection_pool pg in
  match pool with
  | Raise e => (Raise e, pg)
  | Return None => (Return VNone, pg)
  | Return (Some _) =>
      let '(row, pg) := fetchrow (Insert name email age prefer_package) pg in
      (except_Exception
         (let* row := row in
          match row with
          | Some row => Return (dict row)
          | None => Return VNone
          end)
         VNone,
       close pg)
  end.

(** [x if x is not None else current] *)
Definition keep {A : Type} (x : option A) (current : A) : A :=
  match x with Some x => x | None => current end.

Definition keep_nullable {A : Type} (x : option A) (current : option A) : option A :=
  match x with Some x => Some x | None => current end.

Definition update_customer (customer_id : Z) (name email : option string)
    (age prefer_package : option Z) (pg : postgres) : result value * postgres :=
  let '(pool, pg) := get_connection_pool pg in
  match pool with
  | Raise e => (Raise e, pg)
  | Return None => (Return VNone, pg)
  | Return (Some _) =>
      let '(current, pg) := fetchrow (SelectById customer_id) pg in
      match current with
      | Raise e => (except_Exception (Raise e) VNone, close pg)
      | Return None => (Return VNone, close pg)
      | Return (Some current) =>
          let new_name := keep name (db_helpers.name (snd current)) in
          let new_email := keep email (db_helpers.email (snd current)) in
          let new_age := keep_nullable age (db_helpers.age (snd current)) in
          let new_prefer_package :=
            keep_nullable prefer_package (db_helpers.prefer_package (snd current)) in
          let '(row, pg) :=
            fetchrow (Update new_name new_email new_age customer_id new_prefer_package) pg in
          (except_Exception
             (let* row := row in
              match row with
              | Some row => Return (dict row)
              | None => Return VNone
              end)
             VNone,
           close pg)
      end
  end.

Definition delete_customer (customer_id : Z) (pg : postgres) : result bool * postgres :=
  let '(pool, pg) := get_connection_pool pg in
  match pool with
  | Raise e => (Raise e, pg)
  | Return None => (Return false, pg)
  | Return (Some _) =>
      let '(result, pg) := execute (Delete customer_id) pg in
      (except_Exception
         (let* result := result in
          if str_contains "DELETE" result then Return true else Return false)
         false,
       close pg)
  end.

End db_helpers.

(** ** api_helpers.py: the weather adapter *)

Module api_helpers.
Import python.

Section adapter.
Context {unicode : Unicode}.

(** An [httpx.Response], by what the adapter asks of it: the status and
    what [response.json()] makes of the body.  The body text itself only
    goes to the log. *)
Record Response : Type := {
  status_code : Z;
  json : result value
}.

(** The weather service: what [client.get(url, headers=..., timeout=30.0)]
    comes back with, a response or an exception. *)
Definition service : Type := string -> result Response.

(** [client.get]: anything but a string is refused as a URL. *)
Definition client_get (net : service) (url : value) : result Response :=
  match url with
  | VStr u => net u
  | _ => Raise TypeError
  end.

(** [response.is_success]: a 2xx status. *)
Definition is_success (response : Response) : bool :=
  (200 <=? status_code response)%Z && (status_code response <=? 299)%Z.

Definition raise_for_status (response : Response) : result unit :=
  if is_success response then Return tt else Raise HTTPStatusError.

(** One entry of the summary. *)
Definition summarize (v : value) : value :=
  match v with
  | VDict d => VStr ("{...} (" +:+ pretty (length d) +:+ " keys)")
  | VList l => VStr ("[...] (" +:+ pretty (length l) +:+ " items)")
  | VStr s =>
      if (50 <? length (characters s))%nat then VStr (first_characters 50 s +:+ "...")
      else VStr s
  | _ => v
  end.

Definition truncate_json_summary (data : value) : result string :=
  if negb (truthy data) then Return "empty data"
  else
    except_Exception
      (let* entries := items data in
       let summary :=
         fold_left (fun summary kv => dict_set (fst kv) (summarize (snd kv)) summary)
                   entries [] in
       Return (str (VDict summary)))
      "data summary unavailable".

Definition make_nws_request (net : service) (url : value) : result value :=
  let attempt :=
    let* response := client_get net url in
    let* _ := raise_for_status response in
    let* data := json response in
    let* _ := truncate_json_summary data in
    Return data in
  match attempt with
  | Return data => Return data
  | Raise e =>
      if is_HTTPStatusError e then Return VNone
      else if is_RequestError e then Return VNone
      else if is_JSONDecodeError e then Return VNone
      else if is_Exception e then Return VNone
      else Raise e
  end.

(** The upstream call fails: the transport gives up or times out, the
    status is not 2xx, or the body does not parse. *)
Definition upstream_fails (net : service) (url : string) : bool :=
  match net url with
  | Raise e => is_Exception e
  | Return response =>
      negb (is_success response)
      || match json response with
         | Raise e => is_Exception e
         | Return _ => false
         end
  end.

Definition format_alert (feature : value) : result string :=
  let* props := getitem feature "properties" in
  let* _ := get props "event" (VStr "Unknown") in
  let* _ := get props "areaDesc" (VStr "Unknown") in
  let* event := get props "event" (VStr "Unknown") in
  let* areaDesc := get props "areaDesc" (VStr "Unknown") in
  let* severity := get props "severity" (VStr "Unknown") in
  let* description := get props "description" (VStr "No description available") in
  let* instruction :=
    get props "instruction" (VStr "No specific instructions provided") in
  Return (dedent ("
        Event: " +:+ str event +:+ "
        Area: " +:+ str areaDesc +:+ "
        Severity: " +:+ str severity +:+ "
        Description: " +:+ str description +:+ "
        Instructions: " +:+ str instruction +:+ "
        ")).

End adapter.

End api_helpers.

(** ** server.py: the tools *)

Module server.
Import python db_helpers api_helpers.

Section tools.
Context {unicode : Unicode}.

Definition NWS_API_BASE : string := "https://api.weather.gov".

Definition get_red_value (b : Z) : Z := (b + 5)%Z.

(** An optional string argument as a value. *)
Definition optional (s : option string) : value :=
  match s with Some s => VStr s | None => VNone end.

(** The body of the loop of [list_customers]. *)
Definition list_entry (customer : value) : result string :=
  let* id := get customer "id" VNone in
  let* name := get customer "name" (VStr "N/A") in
  let* email := get customer "email" (VStr "N/A") in
  let* age := get customer "age" (VStr "N/A") in
  let* prefer_package := get customer "prefer_package" (VStr "N/A") in
  Return (dedent ("
        ID: " +:+ str id +:+ "
        Name: " +:+ str name +:+ "
        Email: " +:+ str email +:+ "
        Age: " +:+ str age +:+ "
        Prefer Package: " +:+ str prefer_package +:+ "
        ---
        ")).

Definition list_customers (pg : postgres) : result string * postgres :=
  let '(customers, pg) := get_customers pg in
  (let* customers := customers in
   if negb (truthy customers) then Return "No customers found in the database."
   else
     let* each := iter customers in
     let* blocks := comprehension list_entry each in
     let* _ := len customers in
     Return (fold_left String.append blocks ("Customers:" +:+ str1 nl)),
   pg).

Definition get_customer (customer_id : Z) (pg : postgres) : result string * postgres :=
  let '(customer, pg) := get_customer_by_id customer_id pg in
  (let* customer := customer in
   if negb (truthy customer) then
     Return ("No customer found with ID: " +:+ pretty customer_id)
   else
     let* id := get customer "id" VNone in
     let* name := get customer "name" (VStr "N/A") in
     let* email := get customer "email" (VStr "N/A") in
     let* age := get customer "age" (VStr "N/A") in
     let* prefer_package := get customer "prefer_package" (VStr "N/A") in
     Return (dedent ("
    Customer Details:
    ID: " +:+ str id +:+ "
    Name: " +:+ str name +:+ "
    Email: " +:+ str email +:+ "
    Age: " +:+ str age +:+ "
    Prefer Package: " +:+ str prefer_package +:+ "
    ")),
   pg).

(** The guard [if not name or not email] lets through a name and an email
    that are both strings with a first character. *)
Definition create_customer (name email : option string) (age prefer_package : option Z)
    (pg : postgres) : result string * postgres :=
  match name, email with
  | Some (String c n), Some (String c' e) =>
      let '(customer, pg) :=
        add_customer (String c n) (String c' e) age prefer_package pg in
      (let* customer := customer in
       if negb (truthy customer) then
         Return "Failed to create customer. Please check database connection and try again."
       else
         let* _ := get customer "id" VNone in
         let* id := get customer "id" VNone in
         let* name := get customer "name" VNone in
         let* email := get customer "email" VNone in
         let* age := get customer "age" (VStr "N/A") in
         let* prefer_package := get customer "prefer_package" (VStr "N/A") in
         Return (dedent ("
    Customer created successfully:
    ID: " +:+ str id +:+ "
    Name: " +:+ str name +:+ "
    Email: " +:+ str email +:+ "
    Age: " +:+ str age +:+ "
    Prefer Package: " +:+ str prefer_package +:+ "
    ")),
       pg)
  | _, _ => (Return "Error: Customer name and email are required.", pg)
  end.

Definition modify_customer (customer_id : Z) (name email : option string)
    (age prefer_package : option Z) (pg : postgres) : result string * postgres :=
  if negb (any [optional name; optional email; nullable age; nullable prefer_package])
  then
    (Return "Error: At least one field (name, email, or phone) must be provided for update.",
     pg)
  else
    let '(customer, pg) :=
      update_customer customer_id name email age prefer_package pg in
    (let* customer := customer in
     if negb (truthy customer) then
       Return ("Failed to update customer with ID: " +:+ pretty customer_id
               +:+ ". Customer may not exist.")
     else
       let* id := get customer "id" VNone in
       let* name := get customer "name" VNone in
       let* email := get customer "email" VNone in
       let* age := get customer "age" (VStr "N/A") in
       let* prefer_package := get customer "prefer_package" (VStr "N/A") in
       Return (dedent ("
    Customer updated successfully:
    ID: " +:+ str id +:+ "
    Name: " +:+ str name +:+ "
    Email: " +:+ str email +:+ "
    Age: " +:+ str age +:+ "
    Prefer Package: " +:+ str prefer_package +:+ "
    ")),
     pg).

Definition remove_customer (customer_id : Z) (pg : postgres) : result string * postgres :=
  let '(success, pg) := delete_customer customer_id pg in
  (let* success := success in
   if negb success then
     Return ("Failed to delete customer with ID: " +:+ pretty customer_id
             +:+ ". Customer may not exist.")
   else
     Return ("Customer with ID: " +:+ pretty customer_id
             +:+ " has been successfully deleted."),
   pg).

Definition find_customers_by_name (name : string) (pg : postgres)
  : result string * postgres :=
  if negb (truthy (VStr name)) then
    (Return "Error: Customer name is required for searching.", pg)
  else
    let '(customers, pg) := get_customer_by_name name pg in
    (let* customers := customers in
     if negb (truthy customers) then
       Return ("No customers found with name containing: '" +:+ name +:+ "'")
     else
       let* n := len customers in
       let* each := iter customers in
       let* blocks := comprehension list_entry each in
       Return (fold_left String.append blocks
                 ("Found " +:+ pretty n +:+ " customer(s) matching '" +:+ name
                  +:+ "':" +:+ str1 nl)),
     pg).

Definition separator : string := str1 nl +:+ "---" +:+ str1 nl.

Definition get_alerts (net : service) (state : string) : result string :=
  let url := NWS_API_BASE +:+ "/alerts/active/area/" +:+ state in
  let* data := make_nws_request net (VStr url) in
  let* unusable :=
    if negb (truthy data) then Return true
    else let* found := contains "features" data in Return (negb found) in
  if unusable then Return "Unable to fetch alerts or no alerts found."
  else
    let* features := getitem data "features" in
    if negb (truthy features) then Return "No active alerts for this state."
    else
      let* _ := len features in
      let* each := iter features in
      let* alerts := comprehension format_alert each in
      Return (join separator alerts).

(** The two characters the source has between temperature and unit. *)
Definition degree : string :=
  String "195" (String "130" (String "194" (String "176" EmptyString))).

(** The body of the loop of [get_forecast]. *)
Definition format_period (period : value) : result string :=
  let* _ := getitem period "name" in
  let* name := getitem period "name" in
  let* temperature := getitem period "temperature" in
  let* temperatureUnit := getitem period "temperatureUnit" in
  let* windSpeed := getitem period "windSpeed" in
  let* windDirection := getitem period "windDirection" in
  let* detailedForecast := getitem period "detailedForecast" in
  Return (dedent ("
            " +:+ str name +:+ ":
            Temperature: " +:+ str temperature +:+ degree +:+ str temperatureUnit +:+ "
            Wind: " +:+ str windSpeed +:+ " " +:+ str windDirection +:+ "
            Forecast: " +:+ str detailedForecast +:+ "
            ")).

Definition get_forecast (net : service) (latitude longitude : pyfloat) : result string :=
  let points_url :=
    NWS_API_BASE +:+ "/points/" +:+ float_str latitude +:+ "," +:+ float_str longitude in
  let* points_data := make_nws_request net (VStr points_url) in
  if negb (truthy points_data) then
    Return "Unable to fetch forecast data for this location."
  else
    let* properties := getitem points_data "properties" in
    let* forecast_url := getitem properties "forecast" in
    let* forecast_data := make_nws_request net forecast_url in
    if negb (truthy forecast_data) then Return "Unable to fetch detailed forecast."
    else
      let* properties := getitem forecast_data "properties" in
      let* periods := getitem properties "periods" in
      let* _ := len periods in
      let* shown := slice_to 5 periods in
      let* each := iter shown in
      let* forecasts := comprehension format_period each in
      Return (join separator forecasts).

End tools.

End server.

(** ** Words for the statements about the adapters and the search by name *)

Module search.
Import python db_helpers server.

(** *** Words for the statements about the adapters *)

(** A call leaves the pool events in pairs: either nothing was added to the
    journal, or a pool was created, statements were sent, and the pool was
    closed. *)
Definition bracketed (before after : list event) : Prop :=
  after = before
  \/ exists sent, after = PoolClosed :: map Sent sent ++ PoolCreated :: before.

(** The sequence is ahead of every row: every identifier in the table is
    below the one the next INSERT receives.  An empty table has this, and
    no adapter loses it. *)
Definition sequence_ahead (pg : postgres) : Prop :=
  forall j f, customers pg !! j = Some f -> (j < next_id pg)%Z.

(** *** Words for the statements about the search

    They speak of strings as lists of characters. *)

(** [hay] starts with [needle]. *)
Fixpoint starts_with (needle hay : list string) : bool :=
  match needle, hay with
  | [], _ => true
  | ch :: needle', ch' :: hay' => String.eqb ch ch' && starts_with needle' hay'
  | _ :: _, [] => false
  end.

(** [needle] occurs somewhere in [hay]. *)
Fixpoint occurs_in (needle hay : list string) : bool :=
  starts_with needle hay
  || match hay with
     | [] => false
     | _ :: hay' => occurs_in needle hay'
     end.

(** What is left of [hay] after [needle] at its start; [None] when [hay]
    does not start with it. *)
Fixpoint after_start (needle hay : list string) : option (list string) :=
  match needle, hay with
  | [], _ => Some hay
  | ch :: needle', ch' :: hay' =>
      if String.eqb ch ch' then after_start needle' hay' else None
  | _ :: _, [] => None
  end.

(** [first] occurs somewhere in [hay] and [second] occurs somewhere after
    that occurrence. *)
Fixpoint occurs_then (first second hay : list string) : bool :=
  match after_start first hay with
  | Some rest => occurs_in second rest
  | None => false
  end
  || match hay with
     | [] => false
     | _ :: hay' => occurs_then first second hay'
     end.

(** No backslash among the characters. *)
Definition unescaped (chars : list string) : bool :=
  forallb (fun ch => negb (String.eqb ch (str1 backslash))) chars.

(** No character has a meaning of its own in a pattern. *)
Definition plain (chars : list string) : bool :=
  forallb (fun ch => negb (String.eqb ch "%") && negb (String.eqb ch "_")
                     && negb (String.eqb ch (str1 backslash))) chars.

End search.

(** ** Words for the statements about the texts *)

Module layout.
Import python.

Section texts.
Context {unicode : Unicode}.

(** [s] has no line break. *)
Definition single_line (s : string) : bool := negb (has_char nl s).

(** [s] starts with a character that is neither a blank nor a line break. *)
Definition starts_with_text (s : string) : bool :=
  match s with
  | EmptyString => false
  | String c _ => negb (is_blank c) && negb (Ascii.eqb c nl)
  end.

(** The lines, each followed by a line break. *)
Fixpoint each_on_its_line (lines : list string) : string :=
  match lines with
  | [] => EmptyString
  | line :: lines' => line +:+ String nl (each_on_its_line lines')
  end.

(** A triple-quoted literal as the tools write it: a line break, the lines
    each behind the same indentation, and the indentation once more before
    the closing quotes. *)
Fixpoint indented_lines (indent : string) (lines : list string) : string :=
  match lines with
  | [] => indent
  | line :: lines' => indent +:+ line +:+ String nl (indented_lines indent lines')
  end.

Definition indented (indent : string) (lines : list string) : string :=
  String nl (indented_lines indent lines).

(** What is written for [key]: the value the dict has for it, in its
    [str] form, or [fallback] when the dict has no such key. *)
Definition shown (d : list (string * value)) (key fallback : string) : string :=
  str (match dict_lookup key d with Some x => x | None => VStr fallback end).

(** The keys [get_forecast] reads from a period. *)
Definition period_keys : list string :=
  ["name"; "temperature"; "temperatureUnit"; "windSpeed"; "windDirection";
   "detailedForecast"].

End texts.

End layout.

(** ** Sample servers and payloads *)

Module samples.
Import python db_helpers api_helpers server.

(** The table of a release of Unicode, cut down to its first 256 code
    points: there the printable ones are U+0020 to U+007E and, of U+00A1
    to U+00FF, all but the soft hyphen. *)
Definition latin_1 : Unicode :=
  {| printable := fun cp =>
       ((32 <=? cp)%N && (cp <=? 126)%N)
       || ((161 <=? cp)%N && (cp <=? 255)%N && negb (cp =? 173)%N) |}.

(** U+00E9, e with acute accent: one character, two bytes. *)
Definition e_acute : string :=
  String (ascii_of_nat 195) (String (ascii_of_nat 169) EmptyString).

(** [n] times U+00E9. *)
Definition accents (n : nat) : string := String.concat EmptyString (repeat e_acute n).

(** [lower()] in a database whose locale is C: the letters A to Z and no
    others. *)
Definition lower_c (ch : string) : string :=
  match ch with
  | String c EmptyString =>
      let n := nat_of_ascii c in
      if (65 <=? n)%nat && (n <=? 90)%nat then str1 (ascii_of_nat (n + 32)) else ch
  | _ => ch
  end.

(** A database that accepts connections and every statement. *)
Definition serving (table : gmap Z fields) (next : Z) : postgres :=
  {| accepts := true; rejects := fun _ => false; folds := lower_c; customers := table;
     next_id := next; journal := [] |}.

(** A customer created from a name and an email only. *)
Definition ann : fields :=
  {| name := "Ann"; email := "ann@example.org"; age := None; prefer_package := None |}.

Definition bob : fields :=
  {| name := "Bob"; email := "bob@example.org"; age := Some 41%Z;
     prefer_package := Some 2%Z |}.

Definition only_ann : postgres := serving {[ 1%Z := ann ]} 2.
Definition ann_and_bob : postgres := serving (<[ 2%Z := bob ]> {[ 1%Z := ann ]}) 3.

(** A 200 response with a JSON body. *)
Definition ok (parsed : value) : Response :=
  {| status_code := 200; json := Return parsed |}.

(** [{"title": "Not Found"}] with status 200: an object without
    ["properties"]. *)
Definition no_properties : Response := ok (VDict [("title", VStr "Not Found")]).

(** [{"features": [{"id": "a1"}]}]: a feature without ["properties"]. *)
Definition bare_feature : Response :=
  ok (VDict [("features", VList [VDict [("id", VStr "a1")]])]).

(** [{"features": []}] *)
Definition no_features : Response := ok (VDict [("features", VList [])]).

Definition not_found : Response :=
  {| status_code := 404; json := Return (VDict [("status", VInt 404)]) |}.

(** A 200 response whose body is not JSON. *)
Definition garbled : Response :=
  {| status_code := 200; json := Raise JSONDecodeError |}.

Definition always (r : result Response) : service := fun _ => r.

Definition alert (event area : string) : value :=
  VDict [("id", VStr "urn:oid:1");
         ("properties", VDict [("event", VStr event); ("areaDesc", VStr area);
                               ("severity", VStr "Severe")])].

(** [{"features": [...]}] with two alerts. *)
Definition two_alerts : Response :=
  ok (VDict [("features", VList [alert "Flood Warning" "Saline";
                                 alert "Tornado Watch" "Ellis"])]).

(** A database that refuses connections. *)
Definition unreachable : postgres :=
  {| accepts := false; rejects := fun _ => false; folds := lower_c;
     customers := <[ 2%Z := bob ]> {[ 1%Z := ann ]}; next_id := 3; journal := [] |}.

(** A database that accepts connections and answers every statement with an
    error. *)
Definition failing : postgres :=
  {| accepts := true; rejects := fun _ => true; folds := lower_c;
     customers := <[ 2%Z := bob ]> {[ 1%Z := ann ]}; next_id := 3; journal := [] |}.

Definition here : pyfloat := {| float_nonzero := true; float_str := "38.5" |}.
Definition there : pyfloat := {| float_nonzero := true; float_str := "-97.25" |}.

Definition period (n : Z) (name : string) : value :=
  VDict [("number", VInt n); ("name", VStr name); ("temperature", VInt (60 + n));
         ("temperatureUnit", VStr "F"); ("windSpeed", VStr "5 mph");
         ("windDirection", VStr "NW"); ("detailedForecast", VStr "Clear.")].

Definition seven_periods : list value :=
  [period 1 "Today"; period 2 "Tonight"; period 3 "Monday"; period 4 "Monday Night";
   period 5 "Tuesday"; period 6 "Tuesday Night"; period 7 "Wednesday"].

Definition grid_url : string := "https://api.weather.gov/gridpoints/TOP/31,80/forecast".

Definition points_body : value :=
  VDict [("properties", VDict [("forecast", VStr grid_url)])].

Definition forecast_body : value :=
  VDict [("properties", VDict [("periods", VList seven_periods)])].

(** A service that knows one point and its forecast. *)
Definition kansas : service := fun url =>
  if String.eqb url "https://api.weather.gov/points/38.5,-97.25" then Return (ok points_body)
  else if String.eqb url grid_url then Return (ok forecast_body)
  else Raise RequestError.

End samples.

(** * Properties *)

Import python db_helpers api_helpers server search layout.

Section properties.
Context {unicode : Unicode}.


(** ** Storage adapters *)

Lemma get_connection_pool_accepts (pg : postgres) :
  accepts pg = true ->
  get_connection_pool pg = (Return (Some tt), note PoolCreated pg).
Proof. intros H. unfold get_connection_pool, create_pool. by rewrite H. Qed.

Lemma get_connection_pool_refuses (pg : postgres) :
  accepts pg = false -> get_connection_pool pg = (Return None, pg).
Proof. intros H. unfold get_connection_pool, create_pool. by rewrite H. Qed.

(** Whatever the tag counts, it starts with the word the adapter looks for. *)
Lemma delete_tag_has_DELETE (i : Z) (pg : postgres) (tag : string) :
  fst (execute (Delete i) pg) = Return tag -> str_contains "DELETE" tag = true.
Proof.
  unfold execute, run; simpl.
  destruct (rejects pg (Delete i)); simpl; [discriminate |].
  destruct (customers pg !! i); simpl; intros [= <-]; reflexivity.
Qed.

(** Once the statement has been executed, [delete_customer] answers [True],
    whether or not a row was there to delete. *)
Lemma delete_customer_executed (customer_id : Z) (pg : postgres) :
  accepts pg = true -> rejects pg (Delete customer_id) = false ->
  fst (delete_customer customer_id pg) = Return true.
Proof.
  intros Ha Hr. unfold delete_customer.
  rewrite (get_connection_pool_accepts _ Ha).
  unfold execute, run; simpl. rewrite Hr.
  destruct (customers pg !! customer_id); reflexivity.
Qed.

(** C1: [delete_customer] on an identifier that has no row.  The server
    reports [DELETE 0], no row affected, and the adapter still returns
    [True]; the tool then announces a successful deletion. *)
Theorem delete_customer_absent_row_reports_success :
  samples.only_ann.(customers) !! 7%Z = None
  /\ fst (execute (Delete 7) (note PoolCreated samples.only_ann)) = Return "DELETE 0"
  /\ fst (delete_customer 7 samples.only_ann) = Return true
  /\ fst (remove_customer 7 samples.only_ann)
     = Return "Customer with ID: 7 has been successfully deleted.".
Proof. repeat split; vm_compute; reflexivity. Qed.

(** ** Response formatter *)

(** A key that the dict lacks is rendered as the marker. *)
Lemma get_missing_key (d : list (string * value)) (k : string) (default : value) :
  dict_lookup k d = None -> get (VDict d) k default = Return default.
Proof. intros H. simpl. by rewrite H. Qed.

(** A key that the dict has is rendered by its value, [None] included. *)
Lemma get_present_key (d : list (string * value)) (k : string) (x default : value) :
  dict_lookup k d = Some x -> get (VDict d) k default = Return x.
Proof. intros H. simpl. by rewrite H. Qed.

(** Every record that comes out of the table has all five keys. *)
Lemma dict_has_every_column (row : record) :
  get (dict row) "age" (VStr "N/A") = Return (nullable (age (snd row)))
  /\ get (dict row) "prefer_package" (VStr "N/A")
     = Return (nullable (prefer_package (snd row))).
Proof. split; reflexivity. Qed.

(** C2: a customer stored without age and preferred package, as
    [create_customer] stores it when they are not supplied, is rendered by
    [get_customer] and by [list_customers] with [None] after the two
    labels, not with the marker [N/A]. *)
Theorem absent_optional_fields_render_as_None :
  fst (get_customer 1 samples.only_ann)
  = Return ("
Customer Details:
ID: 1
Name: Ann
Email: ann@example.org
Age: None
Prefer Package: None
")
  /\ fst (list_customers samples.only_ann)
     = Return ("Customers:

ID: 1
Name: Ann
Email: ann@example.org
Age: None
Prefer Package: None
---
").
Proof. split; vm_compute; reflexivity. Qed.

(** ** Weather tools *)

(** C3: a 200 response whose body is an object without ["properties"]
    makes [get_forecast] raise [KeyError]; a feature without
    ["properties"] does the same to [format_alert] and through it to
    [get_alerts]. *)
Theorem missing_keys_raise_out_of_the_tools :
  get_forecast (samples.always (Return samples.no_properties)) samples.here samples.there
  = Raise KeyError
  /\ format_alert (VDict [("id", VStr "a1")]) = Raise KeyError
  /\ get_alerts (samples.always (Return samples.bare_feature)) "KS" = Raise KeyError.
Proof. repeat split; vm_compute; reflexivity. Qed.

(** ** Dispatcher *)

(** C6: an update that supplies only the age 0, or only an empty name, is
    answered with the missing-field text, and nothing reaches the
    database. *)
Theorem modify_customer_rejects_falsy_values :
  modify_customer 1 None None (Some 0%Z) None samples.only_ann
  = (Return "Error: At least one field (name, email, or phone) must be provided for update.",
     samples.only_ann)
  /\ modify_customer 1 (Some EmptyString) None None None samples.only_ann
     = (Return "Error: At least one field (name, email, or phone) must be provided for update.",
        samples.only_ann)
  /\ fst (update_customer 1 None None (Some 0%Z) None samples.only_ann)
     = Return (dict (1%Z, {| name := "Ann"; email := "ann@example.org";
                              age := Some 0%Z; prefer_package := None |})).
Proof. repeat split; vm_compute; reflexivity. Qed.

(** ** Dicts *)

Lemma truthy_dict_with_key (d : list (string * value)) (k : string) (x : value) :
  dict_lookup k d = Some x -> truthy (VDict d) = true.
Proof. by destruct d. Qed.

Lemma contains_dict_with_key (d : list (string * value)) (k : string) (x : value) :
  dict_lookup k d = Some x -> contains k (VDict d) = Return true.
Proof. intros H. unfold contains. by rewrite H. Qed.

Lemma getitem_dict_with_key (d : list (string * value)) (k : string) (x : value) :
  dict_lookup k d = Some x -> getitem (VDict d) k = Return x.
Proof. intros H. unfold getitem. by rewrite H. Qed.

(** ** Weather adapter *)

(** Summarising the payload for the log never raises. *)
Lemma truncate_json_summary_returns (data : value) :
  exists summary, truncate_json_summary data = Return summary.
Proof.
  unfold truncate_json_summary.
  destruct (truthy data); simpl; [| eauto].
  destruct data; simpl; eauto.
Qed.

Lemma make_nws_request_success (net : service) (url : string)
    (response : Response) (data : value) :
  net url = Return response -> is_success response = true ->
  json response = Return data ->
  make_nws_request net (VStr url) = Return data.
Proof.
  intros Hget Hok Hjson. unfold make_nws_request, raise_for_status; simpl.
  rewrite Hget; simpl. rewrite Hok; simpl. rewrite Hjson; simpl.
  destruct (truncate_json_summary_returns data) as [summary ->]. reflexivity.
Qed.

(** Every class of [Exception] ends in one of the four handlers. *)
Lemma handlers_cover (e : exn) :
  is_Exception e = true ->
  (if is_HTTPStatusError e then Return VNone
   else if is_RequestError e then Return VNone
   else if is_JSONDecodeError e then Return VNone
   else if is_Exception e then Return VNone
   else Raise e) = Return VNone.
Proof. intros H. rewrite H. by destruct e. Qed.

Lemma make_nws_request_failure (net : service) (url : string) :
  upstream_fails net url = true -> make_nws_request net (VStr url) = Return VNone.
Proof.
  unfold upstream_fails, make_nws_request, raise_for_status; simpl.
  destruct (net url) as [response | e]; simpl.
  - destruct (is_success response); simpl; [| reflexivity].
    destruct (json response) as [data | e]; simpl; [discriminate |].
    apply handlers_cover.
  - apply handlers_cover.
Qed.

Lemma make_nws_request_raises_no_Exception (net : service) (url : value) (e : exn) :
  make_nws_request net url = Raise e -> is_Exception e = false.
Proof.
  unfold make_nws_request.
  match goal with |- match ?a with _ => _ end = _ -> _ => destruct a as [data | e'] end;
    [discriminate |].
  destruct e'; simpl; try discriminate. intros [= <-]. reflexivity.
Qed.

(** C4: on a 2xx response with a body that parses, [make_nws_request]
    returns the parsed body; on a status outside 2xx, on a transport failure
    or a timeout, and on a body that does not parse, it returns [None]; and no
    exception of class [Exception] ever leaves it. *)
Theorem make_nws_request_sentinel (net : service) (url : string) :
  (forall response data,
      net url = Return response -> is_success response = true ->
      json response = Return data ->
      make_nws_request net (VStr url) = Return data)
  /\ (forall response,
         net url = Return response -> is_success response = false ->
         make_nws_request net (VStr url) = Return VNone)
  /\ (forall e,
         net url = Raise e -> is_RequestError e = true ->
         make_nws_request net (VStr url) = Return VNone)
  /\ (forall response e,
         net url = Return response -> json response = Raise e ->
         is_Exception e = true ->
         make_nws_request net (VStr url) = Return VNone)
  /\ (forall e, make_nws_request net (VStr url) = Raise e -> is_Exception e = false).
Proof.
  split; [| split; [| split; [| split]]].
  - intros response data. apply make_nws_request_success.
  - intros response Hget Hok. apply make_nws_request_failure.
    unfold upstream_fails. by rewrite Hget, Hok.
  - intros e Hget He. apply make_nws_request_failure.
    unfold upstream_fails. rewrite Hget. by destruct e.
  - intros response e Hget Hjson He. apply make_nws_request_failure.
    unfold upstream_fails. rewrite Hget, Hjson, He. apply orb_true_r.
  - apply make_nws_request_raises_no_Exception.
Qed.

(** C8: when the upstream call succeeds with an empty feature list
    [get_alerts] returns one fixed message, when the upstream call fails it
    returns another, and the two differ. *)
Theorem get_alerts_empty_and_failed (net : service) (state : string) :
  (forall response d,
      net (NWS_API_BASE +:+ "/alerts/active/area/" +:+ state) = Return response ->
      is_success response = true ->
      json response = Return (VDict d) ->
      dict_lookup "features" d = Some (VList []) ->
      get_alerts net state = Return "No active alerts for this state.")
  /\ (upstream_fails net (NWS_API_BASE +:+ "/alerts/active/area/" +:+ state) = true ->
      get_alerts net state = Return "Unable to fetch alerts or no alerts found.")
  /\ "No active alerts for this state." <> "Unable to fetch alerts or no alerts found.".
Proof.
  split; [| split].
  - intros response d Hget Hok Hjson Hfeatures. unfold get_alerts.
    rewrite (make_nws_request_success _ _ _ _ Hget Hok Hjson).
    cbn [bind]. rewrite (truthy_dict_with_key _ _ _ Hfeatures); cbn [negb].
    rewrite (contains_dict_with_key _ _ _ Hfeatures); cbn [bind negb].
    rewrite (getitem_dict_with_key _ _ _ Hfeatures). reflexivity.
  - intros Hfail. unfold get_alerts.
    rewrite (make_nws_request_failure _ _ Hfail). reflexivity.
  - discriminate.
Qed.

(** ** Forecast *)

Lemma comprehension_Forall2 {A B : Type} (f : A -> result B) (l : list A) (ys : list B) :
  Forall2 (fun x y => f x = Return y) l ys -> comprehension f l = Return ys.
Proof.
  induction 1 as [| x y l ys Hx _ IH]; simpl; [reflexivity |].
  by rewrite Hx, IH.
Qed.

Lemma getitem_truthy (v x : value) (k : string) :
  getitem v k = Return x -> truthy v = true.
Proof.
  destruct v; simpl; try discriminate.
  destruct d; simpl; [discriminate | reflexivity].
Qed.

Lemma getitem_path_truthy (v x : value) (k1 k2 : string) :
  (let* inner := getitem v k1 in getitem inner k2) = Return x -> truthy v = true.
Proof.
  destruct (getitem v k1) eqn:H; simpl; [| discriminate].
  intros _. eapply getitem_truthy, H.
Qed.

(** C9: on a successful forecast payload [get_forecast] formats the first
    five periods of the sequence, in their order, and nothing after them:
    its result is the blocks of [periods[:5]] joined by the separator. *)
Theorem get_forecast_first_five (net : service) (latitude longitude : pyfloat)
    (points forecast : Response) (points_data forecast_data : value)
    (forecast_url : string) (periods : list value) :
  net (NWS_API_BASE +:+ "/points/" +:+ float_str latitude +:+ ","
       +:+ float_str longitude) = Return points ->
  is_success points = true ->
  json points = Return points_data ->
  (let* properties := getitem points_data "properties" in
   getitem properties "forecast") = Return (VStr forecast_url) ->
  net forecast_url = Return forecast ->
  is_success forecast = true ->
  json forecast = Return forecast_data ->
  (let* properties := getitem forecast_data "properties" in
   getitem properties "periods") = Return (VList periods) ->
  get_forecast net latitude longitude
  = (let* forecasts := comprehension format_period (firstn 5 periods) in
     Return (join separator forecasts))
  /\ (length (firstn 5 periods) <= 5)%nat
  /\ (forall texts,
         Forall2 (fun period text => format_period period = Return text)
                 (firstn 5 periods) texts ->
         get_forecast net latitude longitude = Return (join separator texts)).
Proof.
  intros Hp Hpok Hpjson Hurl Hf Hfok Hfjson Hperiods.
  assert (get_forecast net latitude longitude
          = (let* forecasts := comprehension format_period (firstn 5 periods) in
             Return (join separator forecasts))) as Heq.
  { unfold get_forecast.
    rewrite (make_nws_request_success _ _ _ _ Hp Hpok Hpjson). cbn [bind].
    rewrite (getitem_path_truthy _ _ _ _ Hurl). cbn [negb].
    destruct (getitem points_data "properties") as [properties |] eqn:E1;
      cbn [bind] in Hurl |- *; [| discriminate].
    rewrite Hurl. cbn [bind].
    rewrite (make_nws_request_success _ _ _ _ Hf Hfok Hfjson). cbn [bind].
    rewrite (getitem_path_truthy _ _ _ _ Hperiods). cbn [negb].
    destruct (getitem forecast_data "properties") as [properties' |] eqn:E2;
      cbn [bind] in Hperiods |- *; [| discriminate].
    rewrite Hperiods. reflexivity. }
  split; [exact Heq | split].
  - apply firstn_le_length.
  - intros texts Hall. rewrite Heq, (comprehension_Forall2 _ _ _ Hall). reflexivity.
Qed.

(** ** Update *)

Lemma fetchrow_select_row (i : Z) (pg : postgres) (f : fields) :
  rejects pg (SelectById i) = false -> customers pg !! i = Some f ->
  fetchrow (SelectById i) pg = (Return (Some (i, f)), note (Sent (SelectById i)) pg).
Proof. intros Hr Hf. unfold fetchrow, run; simpl. by rewrite Hr, Hf. Qed.

Lemma fetchrow_update_row (n e : string) (a p : option Z) (i : Z) (pg : postgres)
    (f : fields) :
  rejects pg (Update n e a i p) = false -> customers pg !! i = Some f ->
  fetchrow (Update n e a i p) pg
  = (Return (Some (i, {| name := n; email := e; age := a; prefer_package := p |})),
     store (<[i := {| name := n; email := e; age := a; prefer_package := p |}]>
              (customers pg))
           (note (Sent (Update n e a i p)) pg)).
Proof. intros Hr Hf. unfold fetchrow, run; simpl. by rewrite Hr, Hf. Qed.

(** What [update_customer] does on a server that answers: it reads the row,
    merges and writes. *)
Lemma update_customer_serving (customer_id : Z) (name email : option string)
    (age prefer_package : option Z) (pg : postgres) (current : fields) :
  accepts pg = true -> (forall s, rejects pg s = false) ->
  customers pg !! customer_id = Some current ->
  let merged :=
    {| db_helpers.name := keep name (db_helpers.name current);
       db_helpers.email := keep email (db_helpers.email current);
       db_helpers.age := keep_nullable age (db_helpers.age current);
       db_helpers.prefer_package :=
         keep_nullable prefer_package (db_helpers.prefer_package current) |} in
  let sent :=
    Update (db_helpers.name merged) (db_helpers.email merged) (db_helpers.age merged)
           customer_id (db_helpers.prefer_package merged) in
  fst (update_customer customer_id name email age prefer_package pg)
  = Return (dict (customer_id, merged))
  /\ customers (snd (update_customer customer_id name email age prefer_package pg))
     = <[customer_id := merged]> (customers pg)
  /\ journal (snd (update_customer customer_id name email age prefer_package pg))
     = PoolClosed :: Sent sent :: Sent (SelectById customer_id) :: PoolCreated
       :: journal pg.
Proof.
  intros Ha Hr Hcur merged sent. unfold update_customer.
  rewrite (get_connection_pool_accepts _ Ha).
  rewrite (fetchrow_select_row _ _ current) by (simpl; first [apply Hr | exact Hcur]).
  rewrite (fetchrow_update_row _ _ _ _ _ _ current) by (simpl; first [apply Hr | exact Hcur]).
  repeat split.
Qed.

Lemma update_customer_no_row (customer_id : Z) (name email : option string)
    (age prefer_package : option Z) (pg : postgres) :
  customers pg !! customer_id = None ->
  fst (update_customer customer_id name email age prefer_package pg) = Return VNone
  /\ customers (snd (update_customer customer_id name email age prefer_package pg))
     = customers pg.
Proof.
  intros Hnone. unfold update_customer, get_connection_pool, create_pool.
  destruct (accepts pg); simpl; [| by split].
  unfold fetchrow, run; simpl.
  destruct (rejects pg (SelectById customer_id)); simpl; [by split |].
  rewrite Hnone; simpl. by split.
Qed.

(** C5: on an existing customer [update_customer] reads the current row
    before it writes; the record it writes is the record it returns; every
    field that the request leaves out has in that record the value it had
    before, and every field that the request supplies has the supplied
    value.  On an identifier without a row it returns [None]. *)
Theorem update_customer_merges (customer_id : Z) (name email : option string)
    (age prefer_package : option Z) (pg : postgres) :
  (forall current,
      accepts pg = true -> (forall s, rejects pg s = false) ->
      customers pg !! customer_id = Some current ->
      exists merged,
        fst (update_customer customer_id name email age prefer_package pg)
        = Return (dict (customer_id, merged))
        /\ customers (snd (update_customer customer_id name email age prefer_package pg))
           = <[customer_id := merged]> (customers pg)
        /\ (exists sent,
               journal (snd (update_customer customer_id name email age
                                             prefer_package pg))
               = PoolClosed :: Sent sent :: Sent (SelectById customer_id)
                 :: PoolCreated :: journal pg)
        /\ (name = None -> db_helpers.name merged = db_helpers.name current)
        /\ (email = None -> db_helpers.email merged = db_helpers.email current)
        /\ (age = None -> db_helpers.age merged = db_helpers.age current)
        /\ (prefer_package = None ->
            db_helpers.prefer_package merged = db_helpers.prefer_package current)
        /\ (forall x, name = Some x -> db_helpers.name merged = x)
        /\ (forall x, email = Some x -> db_helpers.email merged = x)
        /\ (forall x, age = Some x -> db_helpers.age merged = Some x)
        /\ (forall x, prefer_package = Some x ->
                      db_helpers.prefer_package merged = Some x))
  /\ (customers pg !! customer_id = None ->
      fst (update_customer customer_id name email age prefer_package pg) = Return VNone
      /\ customers (snd (update_customer customer_id name email age prefer_package pg))
         = customers pg).
Proof.
  split; [| apply update_customer_no_row].
  intros current Ha Hr Hcur.
  destruct (update_customer_serving customer_id name email age prefer_package
              pg current Ha Hr Hcur) as (Hret & Htable & Hjournal).
  eexists. split; [exact Hret |]. split; [exact Htable |].
  split; [eexists; exact Hjournal |].
  repeat split; simpl; intros; subst; reflexivity.
Qed.

Lemma get_customer_by_id_serving (customer_id : Z) (pg : postgres) (current : fields) :
  accepts pg = true -> (forall s, rejects pg s = false) ->
  customers pg !! customer_id = Some current ->
  fst (get_customer_by_id customer_id pg) = Return (dict (customer_id, current)).
Proof.
  intros Ha Hr Hcur. unfold get_customer_by_id.
  rewrite (get_connection_pool_accepts _ Ha).
  by rewrite (fetchrow_select_row _ _ current) by (simpl; first [apply Hr | exact Hcur]).
Qed.

(** C7, as amended: on a server that answers, [update_customer] on an
    existing customer with every field left out or carrying the value the
    row already has returns the very record that a read returned before the
    update, and leaves the table as it was.  [modify_customer] passes such a
    request on when one of the supplied values is truthy, and its answer
    then shows that same record; a request that supplies no field at all it
    answers with the missing-field text, and nothing reaches the
    database. *)
Theorem update_customer_without_change (customer_id : Z) (name email : option string)
    (age prefer_package : option Z) (pg : postgres) (current : fields) :
  accepts pg = true -> (forall s, rejects pg s = false) ->
  customers pg !! customer_id = Some current ->
  name = None \/ name = Some (db_helpers.name current) ->
  email = None \/ email = Some (db_helpers.email current) ->
  age = None \/ age = db_helpers.age current ->
  prefer_package = None \/ prefer_package = db_helpers.prefer_package current ->
  fst (update_customer customer_id name email age prefer_package pg)
  = fst (get_customer_by_id customer_id pg)
  /\ fst (update_customer customer_id name email age prefer_package pg)
     = Return (dict (customer_id, current))
  /\ customers (snd (update_customer customer_id name email age prefer_package pg))
     = customers pg
  /\ (any [optional name; optional email; nullable age; nullable prefer_package] = true ->
      fst (modify_customer customer_id name email age prefer_package pg)
      = Return (dedent (indented "    "
                          ["Customer updated successfully:";
                           "ID: " +:+ pretty customer_id;
                           "Name: " +:+ db_helpers.name current;
                           "Email: " +:+ db_helpers.email current;
                           "Age: " +:+ str (nullable (db_helpers.age current));
                           "Prefer Package: "
                             +:+ str (nullable (db_helpers.prefer_package current))]))
      /\ customers (snd (modify_customer customer_id name email age prefer_package pg))
         = customers pg)
  /\ (name = None -> email = None -> age = None -> prefer_package = None ->
      modify_customer customer_id name email age prefer_package pg
      = (Return "Error: At least one field (name, email, or phone) must be provided for update.",
         pg)).
Proof.
  intros Ha Hr Hcur Hname Hemail Hage Hpackage.
  destruct (update_customer_serving customer_id name email age prefer_package
              pg current Ha Hr Hcur) as (Hret & Htable & _).
  assert ({| db_helpers.name := keep name (db_helpers.name current);
             db_helpers.email := keep email (db_helpers.email current);
             db_helpers.age := keep_nullable age (db_helpers.age current);
             db_helpers.prefer_package :=
               keep_nullable prefer_package (db_helpers.prefer_package current) |}
          = current) as Hsame.
  { destruct current as [n e a p]; simpl in *.
    destruct Hname as [-> | ->], Hemail as [-> | ->], Hage as [-> | ->],
             Hpackage as [-> | ->]; simpl;
      try destruct a; try destruct p; reflexivity. }
  rewrite Hsame in Hret, Htable.
  rewrite (get_customer_by_id_serving _ _ _ Ha Hr Hcur).
  assert (customers (snd (update_customer customer_id name email age prefer_package pg))
          = customers pg) as Hkept by (rewrite Htable; by apply insert_id).
  split; [exact Hret | split; [exact Hret | split; [exact Hkept | split]]].
  - intros Hany. unfold modify_customer. rewrite Hany. cbn [negb].
    destruct (update_customer customer_id name email age prefer_package pg)
      as [answer pg'].
    cbn [fst snd] in Hret, Hkept |- *. rewrite Hret. by split.
  - by intros -> -> -> ->.
Qed.

(** ** Create *)

Lemma create_customer_forwards (n e : string) (age prefer_package : option Z)
    (pg : postgres) :
  n <> EmptyString -> e <> EmptyString ->
  snd (create_customer (Some n) (Some e) age prefer_package pg)
  = snd (add_customer n e age prefer_package pg).
Proof.
  intros Hn He. destruct n as [| c n]; [done |]. destruct e as [| c' e]; [done |].
  unfold create_customer.
  by destruct (add_customer (String c n) (String c' e) age prefer_package pg).
Qed.

(** Once a pool is there, [add_customer] sends the one INSERT, with the
    arguments it was given. *)
Lemma add_customer_journal (n e : string) (age prefer_package : option Z)
    (pg : postgres) :
  accepts pg = true ->
  journal (snd (add_customer n e age prefer_package pg))
  = PoolClosed :: Sent (Insert n e age prefer_package) :: PoolCreated :: journal pg.
Proof.
  intros Ha. unfold add_customer. rewrite (get_connection_pool_accepts _ Ha).
  unfold fetchrow, run; simpl.
  destruct (rejects pg (Insert n e age prefer_package)); simpl; [reflexivity |].
  destruct (customers pg !! next_id pg); reflexivity.
Qed.

Lemma add_customer_serving (n e : string) (age prefer_package : option Z)
    (pg : postgres) :
  accepts pg = true -> (forall s, rejects pg s = false) ->
  customers pg !! next_id pg = None ->
  fst (add_customer n e age prefer_package pg)
  = Return (dict (next_id pg, {| name := n; email := e; age := age;
                                 prefer_package := prefer_package |}))
  /\ customers (snd (add_customer n e age prefer_package pg))
     = <[next_id pg := {| name := n; email := e; age := age;
                          prefer_package := prefer_package |}]> (customers pg).
Proof.
  intros Ha Hr Hfresh. unfold add_customer. rewrite (get_connection_pool_accepts _ Ha).
  unfold fetchrow, run; simpl. rewrite Hr, Hfresh. by split.
Qed.

(** C10: when the name or the email is empty or absent, [create_customer]
    returns the text that states the requirement and the database is left
    exactly as it was, nothing having been sent to it.  When both are
    non-empty the request goes to [add_customer], which sends one INSERT
    carrying the age and the preferred package as given, [None] when they
    were not supplied, and on a server that answers the new row holds
    them so. *)
Theorem create_customer_requires_name_and_email (name email : option string)
    (age prefer_package : option Z) (pg : postgres) :
  (truthy (optional name) = false \/ truthy (optional email) = false ->
   create_customer name email age prefer_package pg
   = (Return "Error: Customer name and email are required.", pg))
  /\ (forall n e,
         name = Some n -> email = Some e -> n <> EmptyString -> e <> EmptyString ->
         snd (create_customer name email age prefer_package pg)
         = snd (add_customer n e age prefer_package pg)
         /\ (accepts pg = true ->
             journal (snd (create_customer name email age prefer_package pg))
             = PoolClosed :: Sent (Insert n e age prefer_package) :: PoolCreated
               :: journal pg)
         /\ (accepts pg = true -> (forall s, rejects pg s = false) ->
             customers pg !! next_id pg = None ->
             customers (snd (create_customer name email age prefer_package pg))
             = <[next_id pg := {| db_helpers.name := n; db_helpers.email := e;
                                  db_helpers.age := age;
                                  db_helpers.prefer_package := prefer_package |}]>
                 (customers pg))).
Proof.
  split.
  - intros Hmissing. unfold create_customer.
    destruct name as [[| c n] |]; simpl in Hmissing; try reflexivity.
    destruct email as [[| c' e] |]; simpl in Hmissing; try reflexivity.
    destruct Hmissing; discriminate.
  - intros n e -> -> Hn He.
    rewrite (create_customer_forwards _ _ _ _ _ Hn He).
    split; [reflexivity | split].
    + apply add_customer_journal.
    + intros Ha Hr Hfresh. by apply add_customer_serving.
Qed.

(** * Further properties of the adapters and tools *)

(** ** Strings *)

Lemma append_cons (c : ascii) (s t : string) : String c s +:+ t = String c (s +:+ t).
Proof. reflexivity. Qed.

Lemma append_empty_l (s : string) : EmptyString +:+ s = s.
Proof. reflexivity. Qed.

Lemma append_empty_r (s : string) : s +:+ EmptyString = s.
Proof. induction s as [| c s IH]; [done |]. by rewrite append_cons, IH. Qed.

Lemma append_assoc (s t u : string) : (s +:+ t) +:+ u = s +:+ (t +:+ u).
Proof. induction s as [| c s IH]; [done |]. by rewrite !append_cons, IH. Qed.

(** ** What a call leaves in the journal *)

Lemma bracketed_none (before : list event) : bracketed before before.
Proof. by left. Qed.

Lemma bracketed_some (before : list event) (sent : list statement) :
  bracketed before (PoolClosed :: map Sent sent ++ PoolCreated :: before).
Proof. right. by exists sent. Qed.

(** X1: every storage adapter either leaves the journal as it was (no pool
    could be created) or adds one pool creation, the statements it sent, and
    one pool closing, in that order, whatever the server answered. *)
Theorem adapters_close_their_pool (pg : postgres) :
  bracketed (journal pg) (journal (snd (get_customers pg)))
  /\ (forall i, bracketed (journal pg) (journal (snd (get_customer_by_id i pg))))
  /\ (forall name, bracketed (journal pg) (journal (snd (get_customer_by_name name pg))))
  /\ (forall n e a p, bracketed (journal pg) (journal (snd (add_customer n e a p pg))))
  /\ (forall i n e a p,
         bracketed (journal pg) (journal (snd (update_customer i n e a p pg))))
  /\ (forall i, bracketed (journal pg) (journal (snd (delete_customer i pg)))).
Proof.
  unfold get_customers, get_customer_by_id, get_customer_by_name, add_customer,
    update_customer, delete_customer, get_connection_pool, create_pool.
  destruct (accepts pg) eqn:Ha; simpl;
    [| by repeat split; intros; apply bracketed_none].
  unfold fetch, fetchrow, execute, run; simpl.
  split; [| split; [| split; [| split; [| split]]]].
  - destruct (rejects pg SelectAll); apply (bracketed_some _ [SelectAll]).
  - intros i. destruct (rejects pg (SelectById i));
      [| destruct (customers pg !! i)]; apply (bracketed_some _ [SelectById i]).
  - intros name. destruct (rejects pg (SelectByName ("%" +:+ name +:+ "%")));
      [| destruct (tokens _)];
      apply (bracketed_some _ [SelectByName ("%" +:+ name +:+ "%")]).
  - intros n e a p. destruct (rejects pg (Insert n e a p));
      [| destruct (customers pg !! next_id pg)]; apply (bracketed_some _ [Insert n e a p]).
  - intros i n e a p. destruct (rejects pg (SelectById i)); simpl;
      [apply (bracketed_some _ [SelectById i]) |].
    destruct (customers pg !! i) as [f |] eqn:Hf; simpl;
      [| apply (bracketed_some _ [SelectById i])].
    match goal with
    | |- context [rejects pg ?u] =>
        destruct (rejects pg u); simpl; [| rewrite Hf];
        apply (bracketed_some _ [u; SelectById i])
    end.
  - intros i. destruct (rejects pg (Delete i));
      [| destruct (customers pg !! i)]; apply (bracketed_some _ [Delete i]).
Qed.

(** ** Failures of the database *)

(** X2: when no pool can be created, every storage adapter returns its
    empty answer, an empty list, [None] or [False], and nothing at all
    reaches the server. *)
Theorem adapters_without_pool (pg : postgres) :
  accepts pg = false ->
  get_customers pg = (Return (VList []), pg)
  /\ (forall i, get_customer_by_id i pg = (Return VNone, pg))
  /\ (forall name, get_customer_by_name name pg = (Return (VList []), pg))
  /\ (forall n e a p, add_customer n e a p pg = (Return VNone, pg))
  /\ (forall i n e a p, update_customer i n e a p pg = (Return VNone, pg))
  /\ (forall i, delete_customer i pg = (Return false, pg)).
Proof.
  intros Ha.
  unfold get_customers, get_customer_by_id, get_customer_by_name, add_customer,
    update_customer, delete_customer.
  rewrite (get_connection_pool_refuses _ Ha). by repeat split.
Qed.

(** X3: when the server answers a statement with an error, the adapter that
    sent it returns its empty answer instead of raising; for
    [update_customer] this holds for the read as well as for the write, and
    for [get_customer_by_name] the statement is the search with the name
    between two percent signs. *)
Theorem adapters_on_rejected_statement (pg : postgres) :
  accepts pg = true ->
  (rejects pg SelectAll = true -> fst (get_customers pg) = Return (VList []))
  /\ (forall i,
         rejects pg (SelectById i) = true ->
         fst (get_customer_by_id i pg) = Return VNone
         /\ forall n e a p, fst (update_customer i n e a p pg) = Return VNone)
  /\ (forall n e a p,
         rejects pg (Insert n e a p) = true ->
         fst (add_customer n e a p pg) = Return VNone)
  /\ (forall i n e a p current,
         rejects pg (SelectById i) = false ->
         customers pg !! i = Some current ->
         rejects pg (Update (keep n (name current)) (keep e (email current))
                            (keep_nullable a (age current)) i
                            (keep_nullable p (prefer_package current))) = true ->
         fst (update_customer i n e a p pg) = Return VNone)
  /\ (forall i, rejects pg (Delete i) = true -> fst (delete_customer i pg) = Return false)
  /\ (forall name,
         rejects pg (SelectByName ("%" +:+ name +:+ "%")) = true ->
         fst (get_customer_by_name name pg) = Return (VList [])).
Proof.
  intros Ha.
  unfold get_customers, get_customer_by_id, get_customer_by_name, add_customer,
    update_customer, delete_customer.
  rewrite (get_connection_pool_accepts _ Ha).
  unfold fetch, fetchrow, execute, run; simpl.
  split; [| split; [| split; [| split; [| split]]]].
  - by intros ->.
  - intros i ->. by split.
  - by intros n e a p ->.
  - intros i n e a p current -> ->; simpl. by intros ->.
  - by intros i ->.
  - by intros name ->.
Qed.

(** X4: a call that reports failure has not changed the table: when
    [add_customer] or [update_customer] returns [None], or
    [delete_customer] returns [False], every row is as it was; and the
    three reading adapters never change it. *)
Theorem failed_calls_leave_the_table (pg : postgres) :
  (forall n e a p,
      fst (add_customer n e a p pg) = Return VNone ->
      customers (snd (add_customer n e a p pg)) = customers pg)
  /\ (forall i n e a p,
         fst (update_customer i n e a p pg) = Return VNone ->
         customers (snd (update_customer i n e a p pg)) = customers pg)
  /\ (forall i,
         fst (delete_customer i pg) = Return false ->
         customers (snd (delete_customer i pg)) = customers pg)
  /\ customers (snd (get_customers pg)) = customers pg
  /\ (forall i, customers (snd (get_customer_by_id i pg)) = customers pg)
  /\ (forall name, customers (snd (get_customer_by_name name pg)) = customers pg).
Proof.
  unfold get_customers, get_customer_by_id, get_customer_by_name, add_customer,
    update_customer, delete_customer, get_connection_pool, create_pool.
  destruct (accepts pg); simpl; [| by repeat split].
  unfold fetch, fetchrow, execute, run; simpl.
  split; [| split; [| split; [| split; [| split]]]].
  - intros n e a p. destruct (rejects pg (Insert n e a p)); simpl; [done |].
    destruct (customers pg !! next_id pg); simpl; [done | discriminate].
  - intros i n e a p. destruct (rejects pg (SelectById i)); simpl; [done |].
    destruct (customers pg !! i) as [f |] eqn:Hf; simpl; [| done].
    match goal with
    | |- context [rejects pg ?u] => destruct (rejects pg u); simpl; [done |]
    end.
    rewrite Hf; simpl. discriminate.
  - intros i. destruct (rejects pg (Delete i)); simpl; [done |].
    destruct (customers pg !! i); simpl; [discriminate | done].
  - by destruct (rejects pg SelectAll).
  - intros i. destruct (rejects pg (SelectById i)); [done |].
    by destruct (customers pg !! i).
  - intros name. destruct (rejects pg (SelectByName ("%" +:+ name +:+ "%"))); [done |].
    by destruct (tokens _).
Qed.

(** ** How the adapters compose *)

(** No adapter changes whether the server accepts connections or which
    statements it refuses. *)
Lemma server_kept (pg : postgres) :
  (forall n e a p,
      accepts (snd (add_customer n e a p pg)) = accepts pg
      /\ rejects (snd (add_customer n e a p pg)) = rejects pg)
  /\ (forall i n e a p,
         accepts (snd (update_customer i n e a p pg)) = accepts pg
         /\ rejects (snd (update_customer i n e a p pg)) = rejects pg)
  /\ (forall i,
         accepts (snd (delete_customer i pg)) = accepts pg
         /\ rejects (snd (delete_customer i pg)) = rejects pg).
Proof.
  unfold add_customer, update_customer, delete_customer, get_connection_pool,
    create_pool.
  destruct (accepts pg) eqn:Ha; simpl; [| by repeat split].
  unfold fetchrow, execute, run; simpl.
  split; [| split].
  - intros n e a p. destruct (rejects pg (Insert n e a p)); simpl; [done |].
    by destruct (customers pg !! next_id pg).
  - intros i n e a p. destruct (rejects pg (SelectById i)); simpl; [done |].
    destruct (customers pg !! i) as [f |] eqn:Hf; simpl; [| done].
    match goal with
    | |- context [rejects pg ?u] => destruct (rejects pg u); simpl; [done |]
    end.
    by rewrite Hf.
  - intros i. destruct (rejects pg (Delete i)); simpl; [done |].
    by destruct (customers pg !! i).
Qed.

(** The answer of [get_customer_by_id], in full. *)
Lemma get_customer_by_id_answer (i : Z) (pg : postgres) :
  fst (get_customer_by_id i pg)
  = Return (if accepts pg && negb (rejects pg (SelectById i))
            then match customers pg !! i with
                 | Some f => dict (i, f)
                 | None => VNone
                 end
            else VNone).
Proof.
  unfold get_customer_by_id, get_connection_pool, create_pool.
  destruct (accepts pg); simpl; [| done].
  unfold fetchrow, run; simpl.
  destruct (rejects pg (SelectById i)); simpl; [done |].
  by destruct (customers pg !! i).
Qed.

(** The sequence stays ahead of every row through every adapter, whatever
    the server answers. *)
Lemma sequence_ahead_kept (pg : postgres) :
  sequence_ahead pg ->
  (forall n e a p, sequence_ahead (snd (add_customer n e a p pg)))
  /\ (forall i n e a p, sequence_ahead (snd (update_customer i n e a p pg)))
  /\ (forall i, sequence_ahead (snd (delete_customer i pg)))
  /\ sequence_ahead (snd (get_customers pg))
  /\ (forall i, sequence_ahead (snd (get_customer_by_id i pg)))
  /\ (forall name, sequence_ahead (snd (get_customer_by_name name pg))).
Proof.
  intros Hahead.
  unfold add_customer, update_customer, delete_customer, get_customers,
    get_customer_by_id, get_customer_by_name, get_connection_pool, create_pool.
  destruct (accepts pg) eqn:Ha; simpl; [| by repeat split].
  unfold fetch, fetchrow, execute, run; simpl.
  split; [| split; [| split; [| split; [| split]]]].
  - intros n e a p. destruct (rejects pg (Insert n e a p)); simpl; [done |].
    destruct (customers pg !! next_id pg) eqn:Hnext; simpl.
    + intros j row Hj. cbn in Hj |- *. specialize (Hahead j row Hj). lia.
    + intros j row Hj. cbn in Hj |- *.
      apply lookup_insert_Some in Hj as [[<- _] | [_ Hj]]; [lia |].
      specialize (Hahead j row Hj). lia.
  - intros i n e a p. destruct (rejects pg (SelectById i)); simpl; [done |].
    destruct (customers pg !! i) as [current |] eqn:Hi; simpl; [| done].
    match goal with
    | |- context [rejects pg ?u] => destruct (rejects pg u); simpl; [done |]
    end.
    rewrite Hi; simpl. intros j row Hj. cbn in Hj |- *.
    apply lookup_insert_Some in Hj as [[<- _] | [_ Hj]]; by eapply Hahead.
  - intros i. destruct (rejects pg (Delete i)); simpl; [done |].
    destruct (customers pg !! i) eqn:Hi; simpl; [| done].
    intros j row Hj. cbn in Hj |- *.
    apply lookup_delete_Some in Hj as [_ Hj]. by eapply Hahead.
  - by destruct (rejects pg SelectAll).
  - intros i. destruct (rejects pg (SelectById i)); simpl; [done |].
    by destruct (customers pg !! i).
  - intros name. destruct (rejects pg (SelectByName ("%" +:+ name +:+ "%"))); [done |].
    by destruct (tokens _).
Qed.

(** X5: a table is either empty or was filled through the adapters, so the
    sequence is ahead of every row: an empty table has this property and
    every adapter keeps it, whatever the server answers.  On such a table
    and a server that answers, the record [add_customer] returns carries
    the next identifier of the sequence, which no row had; reading that
    identifier back gives the identical record, and every customer that was
    there before reads back as before. *)
Theorem add_customer_then_get (n e : string) (a p : option Z) (pg : postgres) :
  sequence_ahead pg ->
  (forall pg0, customers pg0 = ∅ -> sequence_ahead pg0)
  /\ ((forall n e a p, sequence_ahead (snd (add_customer n e a p pg)))
      /\ (forall i n e a p, sequence_ahead (snd (update_customer i n e a p pg)))
      /\ (forall i, sequence_ahead (snd (delete_customer i pg)))
      /\ sequence_ahead (snd (get_customers pg))
      /\ (forall i, sequence_ahead (snd (get_customer_by_id i pg)))
      /\ (forall name, sequence_ahead (snd (get_customer_by_name name pg))))
  /\ (accepts pg = true -> (forall s, rejects pg s = false) ->
      fst (add_customer n e a p pg)
      = Return (dict (next_id pg, {| name := n; email := e; age := a;
                                     prefer_package := p |}))
      /\ fst (get_customer_by_id (next_id pg) pg) = Return VNone
      /\ fst (get_customer_by_id (next_id pg) (snd (add_customer n e a p pg)))
         = fst (add_customer n e a p pg)
      /\ (forall j f,
             customers pg !! j = Some f ->
             fst (get_customer_by_id j (snd (add_customer n e a p pg)))
             = fst (get_customer_by_id j pg))).
Proof.
  intros Hahead.
  split; [| split; [by apply sequence_ahead_kept |]].
  { intros pg0 Hempty j f Hj. by rewrite Hempty, lookup_empty in Hj. }
  intros Ha Hr.
  assert (customers pg !! next_id pg = None) as Hfresh.
  { destruct (customers pg !! next_id pg) as [f |] eqn:Hnext; [| done].
    specialize (Hahead _ _ Hnext). lia. }
  destruct (add_customer_serving n e a p pg Ha Hr Hfresh) as [Hret Htable].
  destruct (proj1 (server_kept pg) n e a p) as [Ha' Hr'].
  split; [exact Hret | split; [| split]].
  - by rewrite get_customer_by_id_answer, Hfresh, Ha, Hr.
  - by rewrite get_customer_by_id_answer, Ha', Hr', Htable, Ha, Hr,
      lookup_insert_eq, Hret.
  - intros j f Hj.
    rewrite !get_customer_by_id_answer, Ha', Hr', Htable, lookup_insert_ne;
      [done | congruence].
Qed.

(** X6: on a server that answers, [delete_customer] removes the row of the
    identifier and no other: afterwards that identifier reads as not
    found, and every other identifier reads as before. *)
Theorem delete_customer_then_get (i : Z) (pg : postgres) :
  accepts pg = true -> (forall s, rejects pg s = false) ->
  customers (snd (delete_customer i pg)) = delete i (customers pg)
  /\ fst (get_customer_by_id i (snd (delete_customer i pg))) = Return VNone
  /\ (forall j, j <> i ->
                fst (get_customer_by_id j (snd (delete_customer i pg)))
                = fst (get_customer_by_id j pg)).
Proof.
  intros Ha Hr.
  destruct (proj2 (proj2 (server_kept pg)) i) as [Ha' Hr'].
  assert (customers (snd (delete_customer i pg)) = delete i (customers pg)) as Htable.
  { unfold delete_customer. rewrite (get_connection_pool_accepts _ Ha).
    unfold execute, run; simpl. rewrite Hr.
    destruct (customers pg !! i) eqn:Hi; simpl; [done |].
    symmetry. by apply delete_id. }
  split; [done | split].
  - by rewrite get_customer_by_id_answer, Ha', Hr', Htable, Ha, Hr, lookup_delete_eq.
  - intros j Hj.
    by rewrite !get_customer_by_id_answer, Ha', Hr', Htable, lookup_delete_ne.
Qed.

(** X7: on a server that answers, reading a customer back after
    [update_customer] gives the record the update returned, and every other
    customer reads as before. *)
Theorem update_customer_then_get (i : Z) (n e : option string) (a p : option Z)
    (pg : postgres) (current : fields) :
  accepts pg = true -> (forall s, rejects pg s = false) ->
  customers pg !! i = Some current ->
  fst (get_customer_by_id i (snd (update_customer i n e a p pg)))
  = fst (update_customer i n e a p pg)
  /\ (forall j, j <> i ->
                fst (get_customer_by_id j (snd (update_customer i n e a p pg)))
                = fst (get_customer_by_id j pg)).
Proof.
  intros Ha Hr Hcur.
  destruct (update_customer_serving i n e a p pg current Ha Hr Hcur)
    as (Hret & Htable & _).
  destruct (proj1 (proj2 (server_kept pg)) i n e a p) as [Ha' Hr'].
  split.
  - by rewrite get_customer_by_id_answer, Ha', Hr', Htable, Ha, Hr,
      lookup_insert_eq, Hret.
  - intros j Hj.
    by rewrite !get_customer_by_id_answer, Ha', Hr', Htable, lookup_insert_ne.
Qed.

(** ** What the adapters hand to the tools *)

(** X8: [delete_customer] returns [True] exactly when a pool was created
    and the server executed the statement, whether or not a row had the
    identifier; [remove_customer] words its answer after that flag. *)
Theorem delete_customer_flag (i : Z) (pg : postgres) :
  fst (delete_customer i pg) = Return (accepts pg && negb (rejects pg (Delete i)))
  /\ fst (remove_customer i pg)
     = Return (if accepts pg && negb (rejects pg (Delete i))
               then "Customer with ID: " +:+ pretty i +:+ " has been successfully deleted."
               else "Failed to delete customer with ID: " +:+ pretty i
                    +:+ ". Customer may not exist.").
Proof.
  assert (fst (delete_customer i pg)
          = Return (accepts pg && negb (rejects pg (Delete i)))) as Hflag.
  { unfold delete_customer, get_connection_pool, create_pool.
    destruct (accepts pg); simpl; [| done].
    unfold execute, run; simpl.
    destruct (rejects pg (Delete i)); simpl; [done |].
    by destruct (customers pg !! i). }
  split; [exact Hflag |].
  unfold remove_customer. destruct (delete_customer i pg) as [flag pg'].
  simpl in Hflag |- *. rewrite Hflag; simpl.
  by destruct (accepts pg && negb (rejects pg (Delete i))).
Qed.

(** X9: on a server that answers, [get_customers] returns one record for
    each row of the table and nothing else, no row twice. *)
Theorem get_customers_lists_every_row (pg : postgres) :
  accepts pg = true -> rejects pg SelectAll = false ->
  exists rows,
    fst (get_customers pg) = Return (VList (map dict rows))
    /\ NoDup rows
    /\ length rows = size (customers pg)
    /\ forall i f, (i, f) ∈ rows <-> customers pg !! i = Some f.
Proof.
  intros Ha Hr. exists (map_to_list (customers pg)).
  split; [| split; [| split]].
  - unfold get_customers. rewrite (get_connection_pool_accepts _ Ha).
    unfold fetch, run; simpl. by rewrite Hr.
  - apply NoDup_map_to_list.
  - apply length_map_to_list.
  - intros i f. apply elem_of_map_to_list.
Qed.

Lemma get_customers_shape (pg : postgres) :
  exists rows, fst (get_customers pg) = Return (VList (map dict rows)).
Proof.
  unfold get_customers, get_connection_pool, create_pool.
  destruct (accepts pg); simpl; [| by exists []].
  unfold fetch, run; simpl.
  destruct (rejects pg SelectAll); simpl; [by exists [] | eauto].
Qed.

Lemma get_customer_by_name_shape (name : string) (pg : postgres) :
  exists rows, fst (get_customer_by_name name pg) = Return (VList (map dict rows)).
Proof.
  unfold get_customer_by_name, get_connection_pool, create_pool.
  destruct (accepts pg); simpl; [| by exists []].
  unfold fetch, run; simpl.
  destruct (rejects pg (SelectByName ("%" +:+ name +:+ "%"))); simpl; [by exists [] |].
  destruct (tokens _); simpl; [eauto | by exists []].
Qed.

Lemma get_customer_by_id_shape (i : Z) (pg : postgres) :
  fst (get_customer_by_id i pg) = Return VNone
  \/ exists row, fst (get_customer_by_id i pg) = Return (dict row).
Proof.
  rewrite get_customer_by_id_answer.
  destruct (accepts pg && negb (rejects pg (SelectById i))); [| by left].
  destruct (customers pg !! i); [right; eauto | by left].
Qed.

Lemma add_customer_shape (n e : string) (a p : option Z) (pg : postgres) :
  fst (add_customer n e a p pg) = Return VNone
  \/ exists row, fst (add_customer n e a p pg) = Return (dict row).
Proof.
  unfold add_customer, get_connection_pool, create_pool.
  destruct (accepts pg); simpl; [| by left].
  unfold fetchrow, run; simpl.
  destruct (rejects pg (Insert n e a p)); simpl; [by left |].
  destruct (customers pg !! next_id pg); simpl; [by left | right; eauto].
Qed.

Lemma update_customer_shape (i : Z) (n e : option string) (a p : option Z)
    (pg : postgres) :
  fst (update_customer i n e a p pg) = Return VNone
  \/ exists row, fst (update_customer i n e a p pg) = Return (dict row).
Proof.
  unfold update_customer, get_connection_pool, create_pool.
  destruct (accepts pg); simpl; [| by left].
  unfold fetchrow, run; simpl.
  destruct (rejects pg (SelectById i)); simpl; [by left |].
  destruct (customers pg !! i) as [f |] eqn:Hf; simpl; [| by left].
  match goal with
  | |- context [rejects pg ?u] => destruct (rejects pg u); simpl; [by left |]
  end.
  rewrite Hf; simpl. right; eauto.
Qed.

(** Every record of the table goes through the loop body of the two
    listing tools. *)
Lemma list_entry_returns (rows : list record) :
  exists blocks, comprehension list_entry (map dict rows) = Return blocks.
Proof.
  induction rows as [| row rows [blocks IH]]; simpl; [eauto |].
  rewrite IH. eauto.
Qed.

Lemma truthy_records (rows : list record) :
  truthy (VList (map dict rows)) = match rows with [] => false | _ => true end.
Proof. by destruct rows. Qed.

(** X10: the six customer tools never raise: whatever the arguments and
    whatever the server does, each returns a text. *)
Theorem customer_tools_always_answer (pg : postgres) :
  (exists text, fst (list_customers pg) = Return text)
  /\ (forall i, exists text, fst (get_customer i pg) = Return text)
  /\ (forall n e a p, exists text, fst (create_customer n e a p pg) = Return text)
  /\ (forall i n e a p, exists text, fst (modify_customer i n e a p pg) = Return text)
  /\ (forall i, exists text, fst (remove_customer i pg) = Return text)
  /\ (forall name, exists text, fst (find_customers_by_name name pg) = Return text).
Proof.
  split; [| split; [| split; [| split; [| split]]]].
  - unfold list_customers. destruct (get_customers_shape pg) as [rows Hrows].
    destruct (get_customers pg) as [answer pg']. simpl in Hrows |- *.
    rewrite Hrows. cbn [bind]. rewrite truthy_records.
    destruct rows as [| row rows]; [simpl; eauto |]. cbn [negb iter bind].
    destruct (list_entry_returns (row :: rows)) as [blocks ->]. simpl. eauto.
  - intros i. unfold get_customer.
    destruct (get_customer_by_id_shape i pg) as [H | [row H]];
      destruct (get_customer_by_id i pg) as [answer pg']; simpl in H |- *;
      rewrite H; simpl; eauto.
  - intros n e a p. unfold create_customer.
    destruct n as [[| c n] |]; simpl; eauto.
    destruct e as [[| c' e] |]; simpl; eauto.
    destruct (add_customer_shape (String c n) (String c' e) a p pg) as [H | [row H]];
      destruct (add_customer (String c n) (String c' e) a p pg) as [answer pg'];
      simpl in H |- *; rewrite H; simpl; eauto.
  - intros i n e a p. unfold modify_customer.
    destruct (negb (any _)); simpl; eauto.
    destruct (update_customer_shape i n e a p pg) as [H | [row H]];
      destruct (update_customer i n e a p pg) as [answer pg']; simpl in H |- *;
      rewrite H; simpl; eauto.
  - intros i. rewrite (proj2 (delete_customer_flag i pg)). eauto.
  - intros name. unfold find_customers_by_name.
    destruct (negb (truthy (VStr name))); simpl; eauto.
    destruct (get_customer_by_name_shape name pg) as [rows Hrows].
    destruct (get_customer_by_name name pg) as [answer pg']. simpl in Hrows |- *.
    rewrite Hrows. cbn [bind]. rewrite truthy_records.
    destruct rows as [| row rows]; [simpl; eauto |]. cbn [negb iter len bind].
    destruct (list_entry_returns (row :: rows)) as [blocks ->]. simpl. eauto.
Qed.

(** ** What the tools say when nothing is found *)

(** X11: when no pool can be created each customer tool, given arguments
    that pass its own check, answers with the text it also uses for a
    missing customer or an empty table, and nothing reaches the server. *)
Theorem customer_tools_without_pool (pg : postgres) :
  accepts pg = false ->
  list_customers pg = (Return "No customers found in the database.", pg)
  /\ (forall i,
         get_customer i pg = (Return ("No customer found with ID: " +:+ pretty i), pg))
  /\ (forall n e a p,
         truthy (optional n) = true -> truthy (optional e) = true ->
         create_customer n e a p pg
         = (Return "Failed to create customer. Please check database connection and try again.",
            pg))
  /\ (forall i n e a p,
         any [optional n; optional e; nullable a; nullable p] = true ->
         modify_customer i n e a p pg
         = (Return ("Failed to update customer with ID: " +:+ pretty i
                    +:+ ". Customer may not exist."), pg))
  /\ (forall i,
         remove_customer i pg
         = (Return ("Failed to delete customer with ID: " +:+ pretty i
                    +:+ ". Customer may not exist."), pg))
  /\ (forall name,
         name <> EmptyString ->
         find_customers_by_name name pg
         = (Return ("No customers found with name containing: '" +:+ name +:+ "'"), pg)).
Proof.
  intros Ha.
  destruct (adapters_without_pool pg Ha)
    as (Hlist & Hget & Hname & Hadd & Hupdate & Hdelete).
  split; [| split; [| split; [| split; [| split]]]].
  - unfold list_customers. by rewrite Hlist.
  - intros i. unfold get_customer. by rewrite Hget.
  - intros n e a p Hn He. unfold create_customer.
    destruct n as [[| c n] |]; try discriminate.
    destruct e as [[| c' e] |]; try discriminate.
    by rewrite Hadd.
  - intros i n e a p Hany. unfold modify_customer. rewrite Hany; simpl.
    by rewrite Hupdate.
  - intros i. unfold remove_customer. by rewrite Hdelete.
  - intros name Hname'. unfold find_customers_by_name.
    destruct name as [| c name]; [done |]. simpl. by rewrite Hname.
Qed.

Lemma fold_left_append (blocks : list string) (start : string) :
  fold_left String.append blocks start = start +:+ String.concat EmptyString blocks.
Proof.
  revert start. induction blocks as [| b blocks IH]; intros start; simpl.
  - by rewrite append_empty_r.
  - rewrite IH. destruct blocks as [| b' blocks].
    + simpl. by rewrite append_empty_r.
    + by rewrite <- append_assoc.
Qed.

(** X12: [list_customers] says that no customers were found exactly when
    the table is empty, no pool could be created, or the server refused the
    query; in every other case its text starts with the heading. *)
Theorem list_customers_none_found (pg : postgres) :
  (fst (list_customers pg) = Return "No customers found in the database."
   <-> accepts pg = false \/ rejects pg SelectAll = true \/ customers pg = ∅)
  /\ (accepts pg = true -> rejects pg SelectAll = false -> customers pg <> ∅ ->
      exists rest, fst (list_customers pg) = Return ("Customers:" +:+ str1 nl +:+ rest)).
Proof.
  assert (accepts pg = true -> rejects pg SelectAll = false ->
          fst (list_customers pg)
          = (if bool_decide (customers pg = ∅)
             then Return "No customers found in the database."
             else match comprehension list_entry
                          (map dict (map_to_list (customers pg))) with
                  | Return blocks =>
                      Return ("Customers:" +:+ str1 nl
                              +:+ String.concat EmptyString blocks)
                  | Raise e => Raise e
                  end)) as Hserving.
  { intros Ha Hr. unfold list_customers, get_customers.
    rewrite (get_connection_pool_accepts _ Ha).
    unfold fetch, run; simpl. rewrite Hr; simpl.
    case_bool_decide as Hempty.
    - by rewrite Hempty, map_to_list_empty.
    - destruct (map_to_list (customers pg)) as [| row rows] eqn:Hrows.
      { by apply map_to_list_empty_iff in Hrows. }
      cbn [map negb bind].
      destruct (comprehension list_entry (dict row :: map dict rows)) as [blocks |];
        [| done].
      cbn [bind len]. by rewrite fold_left_append. }
  split.
  - split.
    + intros Htext.
      destruct (accepts pg) eqn:Ha; [| by left].
      destruct (rejects pg SelectAll) eqn:Hr; [by right; left |].
      right; right. rewrite (Hserving eq_refl eq_refl) in Htext.
      case_bool_decide; [done |].
      destruct (comprehension _ _); discriminate.
    + intros [Ha | [Hr | Hempty]].
      * by rewrite (proj1 (customer_tools_without_pool pg Ha)).
      * destruct (accepts pg) eqn:Ha;
          [| by rewrite (proj1 (customer_tools_without_pool pg Ha))].
        unfold list_customers, get_customers.
        rewrite (get_connection_pool_accepts _ Ha).
        unfold fetch, run; simpl. by rewrite Hr.
      * destruct (accepts pg) eqn:Ha;
          [| by rewrite (proj1 (customer_tools_without_pool pg Ha))].
        destruct (rejects pg SelectAll) eqn:Hr.
        -- unfold list_customers, get_customers.
           rewrite (get_connection_pool_accepts _ Ha).
           unfold fetch, run; simpl. by rewrite Hr.
        -- rewrite (Hserving eq_refl eq_refl). by rewrite bool_decide_eq_true_2.
  - intros Ha Hr Hne. rewrite (Hserving Ha Hr).
    rewrite bool_decide_eq_false_2 by done.
    destruct (list_entry_returns (map_to_list (customers pg))) as [blocks ->].
    eauto.
Qed.

(** ** Characters *)

Lemma has_char_append (c : ascii) (s t : string) :
  has_char c (s +:+ t) = has_char c s || has_char c t.
Proof.
  induction s as [| c' s IH]; [done |].
  rewrite append_cons. cbn [has_char]. by rewrite IH, orb_assoc.
Qed.

Lemma characters_none (s : string) : characters s = [] -> s = EmptyString.
Proof.
  destruct s as [| c s]; [done |]. cbn [characters].
  destruct (characters s); [done |]. by destruct (negb (is_ascii c) && continues s).
Qed.

(** A byte below 128 is a character by itself. *)
Lemma characters_ascii (c : ascii) (s : string) :
  is_ascii c = true -> characters (String c s) = str1 c :: characters s.
Proof. intros Hc. cbn [characters]. rewrite Hc. by destruct (characters s). Qed.

(** Where the second part does not start in the middle of a character the
    characters of the two parts are those of the whole. *)
Lemma characters_append (s t : string) :
  continues t = false -> characters (s +:+ t) = characters s ++ characters t.
Proof.
  intros Ht. induction s as [| c s IH]; [done |].
  rewrite append_cons. cbn [characters]. rewrite IH.
  destruct s as [| c' s].
  - rewrite append_empty_l. cbn [characters app]. rewrite Ht, andb_false_r.
    by destruct (characters t).
  - rewrite append_cons. cbn [continues].
    destruct (characters (String c' s)) as [| ch rest] eqn:Hchars;
      [by apply characters_none in Hchars |].
    cbn [app]. by destruct (negb (is_ascii c) && is_continuation c').
Qed.

Lemma characters_concat (s : string) :
  String.concat EmptyString (characters s) = s.
Proof.
  induction s as [| c s IH]; [done |]. cbn [characters].
  destruct (characters s) as [| ch rest] eqn:Hchars.
  - by rewrite (characters_none _ Hchars).
  - destruct (negb (is_ascii c) && continues s).
    + rewrite <- IH. cbn [String.concat]. destruct rest; [done |].
      by rewrite append_cons.
    + by rewrite <- IH.
Qed.

(** ** The search by name *)

Lemma matches_any_run (ts : list token) (s : list string) :
  matches (AnyRun :: ts) s
  = matches ts s
    || match s with
       | [] => false
       | _ :: s' => matches (AnyRun :: ts) s'
       end.
Proof. by destruct s. Qed.

Lemma matches_only_any_run (s : list string) : matches [AnyRun] s = true.
Proof.
  induction s as [| ch s IH]; [done |].
  rewrite matches_any_run, IH. apply orb_true_r.
Qed.

Lemma matches_letters (needle : list string) (ts : list token) (hay : list string) :
  matches (map Exactly needle ++ ts) hay
  = match after_start needle hay with
    | Some rest => matches ts rest
    | None => false
    end.
Proof.
  revert hay. induction needle as [| ch needle IH]; intros hay; [done |].
  destruct hay as [| ch' hay]; cbn [map app matches after_start]; [done |].
  rewrite IH. by destruct (String.eqb ch ch').
Qed.

Lemma starts_with_after_start (needle hay : list string) :
  starts_with needle hay
  = match after_start needle hay with Some _ => true | None => false end.
Proof.
  revert hay.
  induction needle as [| ch needle IH]; intros [| ch' hay];
    cbn [starts_with after_start]; try done.
  rewrite IH. by destruct (String.eqb ch ch').
Qed.

Lemma matches_contains (needle hay : list string) :
  matches (AnyRun :: map Exactly needle ++ [AnyRun]) hay = occurs_in needle hay.
Proof.
  induction hay as [| ch hay IH]; rewrite matches_any_run, matches_letters;
    cbn [occurs_in]; rewrite starts_with_after_start.
  - destruct (after_start needle []); [by rewrite matches_only_any_run | done].
  - rewrite IH.
    destruct (after_start needle (ch :: hay)); [by rewrite matches_only_any_run | done].
Qed.

Lemma matches_contains_then (first second hay : list string) :
  matches (AnyRun :: map Exactly first ++ AnyRun :: map Exactly second ++ [AnyRun]) hay
  = occurs_then first second hay.
Proof.
  induction hay as [| ch hay IH]; rewrite matches_any_run, matches_letters;
    cbn [occurs_then].
  - destruct (after_start first []); [| done]. by rewrite matches_contains.
  - rewrite IH. destruct (after_start first (ch :: hay)); [| done].
    by rewrite matches_contains.
Qed.

(** Characters among which there is no backslash are read one by one. *)
Lemma tokens_unescaped (chars rest : list string) :
  unescaped chars = true ->
  tokens (chars ++ rest)
  = match tokens rest with
    | Some ts => Some (map token_of chars ++ ts)
    | None => None
    end.
Proof.
  induction chars as [| ch chars IH]; cbn [unescaped forallb app].
  - intros _. by destruct (tokens rest).
  - intros [Hch Hchars]%andb_prop. apply negb_true_iff in Hch.
    cbn [tokens]. rewrite Hch. fold (unescaped chars) in Hchars.
    rewrite (IH Hchars). by destruct (tokens rest).
Qed.

Lemma plain_unescaped (chars : list string) : plain chars = true -> unescaped chars = true.
Proof.
  unfold plain, unescaped. induction chars as [| ch chars IH]; [done |].
  cbn [forallb]. intros [[_ Hb]%andb_prop Hchars]%andb_prop.
  by rewrite Hb, (IH Hchars).
Qed.

Lemma plain_tokens (chars : list string) :
  plain chars = true -> map token_of chars = map Exactly chars.
Proof.
  unfold plain. induction chars as [| ch chars IH]; [done |].
  cbn [forallb map].
  intros [[[Hpercent Hone]%andb_prop _]%andb_prop Hchars]%andb_prop.
  rewrite (IH Hchars). unfold token_of.
  apply negb_true_iff in Hpercent, Hone. by rewrite Hpercent, Hone.
Qed.

(** The pattern of a search, as the server reads it. *)
Lemma lowered_search_pattern (pg : postgres) (name : string) :
  folds pg "%" = "%" ->
  lowered pg ("%" +:+ name +:+ "%") = "%" :: lowered pg name ++ ["%"].
Proof.
  intros Hfold. unfold lowered.
  change ("%" +:+ name +:+ "%") with (String "%" (name +:+ "%")).
  rewrite characters_ascii by done. rewrite characters_append by done.
  change (characters "%") with ["%"]. change (str1 "%") with "%".
  cbn [map]. rewrite map_app. cbn [map]. by rewrite Hfold.
Qed.

Lemma search_pattern_tokens (pg : postgres) (name : string) :
  folds pg "%" = "%" -> unescaped (lowered pg name) = true ->
  tokens (lowered pg ("%" +:+ name +:+ "%"))
  = Some (AnyRun :: map token_of (lowered pg name) ++ [AnyRun]).
Proof.
  intros Hfold Hname. rewrite (lowered_search_pattern _ _ Hfold).
  cbn [tokens]. change (String.eqb "%" (str1 backslash)) with false. cbv iota.
  by rewrite (tokens_unescaped _ _ Hname).
Qed.

(** The records a search returns once a pool is there and the server
    answers the query, by the test each row has to pass. *)
Lemma get_customer_by_name_rows (name : string) (pg : postgres) (ts : list token) :
  accepts pg = true ->
  rejects pg (SelectByName ("%" +:+ name +:+ "%")) = false ->
  tokens (lowered pg ("%" +:+ name +:+ "%")) = Some ts ->
  fst (get_customer_by_name name pg)
  = Return (VList (map dict
                       (List.filter
                          (fun row => matches ts (lowered pg (db_helpers.name (snd row))))
                          (map_to_list (customers pg))))).
Proof.
  intros Ha Hr Hts. unfold get_customer_by_name.
  rewrite (get_connection_pool_accepts _ Ha). unfold fetch, run.
  cbn [note rejects]. rewrite Hr.
  change (lowered (note _ (note PoolCreated pg))) with (lowered pg).
  rewrite Hts. reflexivity.
Qed.

Lemma filtered_rows (pg : postgres) (test : record -> bool) (i : Z) (f : fields) :
  (i, f) ∈ List.filter test (map_to_list (customers pg))
  <-> customers pg !! i = Some f /\ test (i, f) = true.
Proof.
  rewrite list_elem_of_In, List.filter_In, <- list_elem_of_In, elem_of_map_to_list.
  done.
Qed.

(** X13: once a pool is there and the server answers the query, a search
    for a text that, lower-cased by the server, has no [%], [_] or
    backslash returns the customers whose lower-cased name contains the
    lower-cased text, and no others.  The lower-casing is the server's;
    it is taken to leave [%] as it is. *)
Theorem get_customer_by_name_contains (name : string) (pg : postgres) :
  accepts pg = true ->
  rejects pg (SelectByName ("%" +:+ name +:+ "%")) = false ->
  folds pg "%" = "%" ->
  plain (lowered pg name) = true ->
  exists rows,
    fst (get_customer_by_name name pg) = Return (VList (map dict rows))
    /\ forall i f,
         (i, f) ∈ rows
         <-> customers pg !! i = Some f
             /\ occurs_in (lowered pg name) (lowered pg (db_helpers.name f)) = true.
Proof.
  intros Ha Hr Hfold Hplain.
  pose proof (search_pattern_tokens pg name Hfold (plain_unescaped _ Hplain)) as Hts.
  rewrite (plain_tokens _ Hplain) in Hts.
  eexists. split; [apply (get_customer_by_name_rows _ _ _ Ha Hr Hts) |].
  intros i f. rewrite filtered_rows. cbv beta. cbn [snd]. by rewrite matches_contains.
Qed.

Lemma matches_tokens_start (needle hay : list string) (ts : list token) :
  (forall t, matches ts t = true) ->
  starts_with needle hay = true ->
  matches (map token_of needle ++ ts) hay = true.
Proof.
  intros Hts. revert hay. induction needle as [| ch needle IH]; intros hay.
  - intros _. apply Hts.
  - destruct hay as [| ch' hay]; [done |]. cbn [starts_with].
    intros [Hch Hrest]%andb_prop. specialize (IH hay Hrest).
    cbn [map app].
    destruct (token_of ch) as [| | ch0] eqn:Htoken.
    + rewrite matches_any_run. cbv iota. rewrite (matches_any_run _ hay), IH.
      apply orb_true_r.
    + exact IH.
    + assert (ch0 = ch) as ->.
      { unfold token_of in Htoken.
        destruct (String.eqb ch "%"); [done |].
        destruct (String.eqb ch "_"); congruence. }
      cbn [matches]. by rewrite Hch, IH.
Qed.

Lemma matches_tokens_occurs (needle hay : list string) :
  occurs_in needle hay = true ->
  matches (AnyRun :: map token_of needle ++ [AnyRun]) hay = true.
Proof.
  induction hay as [| ch hay IH]; cbn [occurs_in]; rewrite matches_any_run.
  - rewrite orb_false_r. intros Hstart.
    by rewrite (matches_tokens_start _ _ _ matches_only_any_run Hstart).
  - intros [Hstart | Hlater]%orb_prop.
    + by rewrite (matches_tokens_start _ _ _ matches_only_any_run Hstart).
    + rewrite (IH Hlater). apply orb_true_r.
Qed.

(** X14: once a pool is there and the server answers the query, a search
    for a text that, lower-cased by the server, has no backslash returns
    only customers of the table, and it returns every customer whose
    lower-cased name contains the lower-cased text, whatever [%] and [_]
    the text has. *)
Theorem get_customer_by_name_finds_literal (name : string) (pg : postgres) :
  accepts pg = true ->
  rejects pg (SelectByName ("%" +:+ name +:+ "%")) = false ->
  folds pg "%" = "%" ->
  unescaped (lowered pg name) = true ->
  exists rows,
    fst (get_customer_by_name name pg) = Return (VList (map dict rows))
    /\ (forall i f, (i, f) ∈ rows -> customers pg !! i = Some f)
    /\ (forall i f,
           customers pg !! i = Some f ->
           occurs_in (lowered pg name) (lowered pg (db_helpers.name f)) = true ->
           (i, f) ∈ rows).
Proof.
  intros Ha Hr Hfold Hname.
  eexists. split; [apply (get_customer_by_name_rows _ _ _ Ha Hr
                            (search_pattern_tokens pg name Hfold Hname)) |].
  split; intros i f; rewrite filtered_rows.
  - by intros [Hf _].
  - intros Hf Hoccurs. split; [done |]. cbv beta. cbn [snd].
    by apply matches_tokens_occurs.
Qed.

Lemma lowered_percent_between (pg : postgres) (first second : string) :
  folds pg "%" = "%" ->
  lowered pg (first +:+ "%" +:+ second)
  = lowered pg first ++ "%" :: lowered pg second.
Proof.
  intros Hfold. unfold lowered.
  rewrite characters_append by done.
  change ("%" +:+ second) with (String "%" second).
  rewrite characters_ascii by done. change (str1 "%") with "%".
  rewrite map_app. cbn [map]. by rewrite Hfold.
Qed.

(** X15: a [%] inside the text is not searched for, it stands for any run
    of characters: once a pool is there and the server answers the query,
    a search for [first%second], both parts free of [%], [_] and backslash
    when lower-cased by the server, returns the customers whose lower-cased
    name contains the lower-cased [first] and, somewhere after it, the
    lower-cased [second], and no others. *)
Theorem get_customer_by_name_percent (first second : string) (pg : postgres) :
  accepts pg = true ->
  rejects pg (SelectByName ("%" +:+ (first +:+ "%" +:+ second) +:+ "%")) = false ->
  folds pg "%" = "%" ->
  plain (lowered pg first) = true -> plain (lowered pg second) = true ->
  exists rows,
    fst (get_customer_by_name (first +:+ "%" +:+ second) pg)
    = Return (VList (map dict rows))
    /\ forall i f,
         (i, f) ∈ rows
         <-> customers pg !! i = Some f
             /\ occurs_then (lowered pg first) (lowered pg second)
                            (lowered pg (db_helpers.name f)) = true.
Proof.
  intros Ha Hr Hfold Hfirst Hsecond.
  assert (unescaped (lowered pg (first +:+ "%" +:+ second)) = true) as Hname.
  { rewrite (lowered_percent_between _ _ _ Hfold). unfold unescaped.
    rewrite forallb_app. cbn [forallb].
    fold (unescaped (lowered pg first)). fold (unescaped (lowered pg second)).
    by rewrite (plain_unescaped _ Hfirst), (plain_unescaped _ Hsecond). }
  pose proof (search_pattern_tokens pg _ Hfold Hname) as Hts.
  rewrite (lowered_percent_between _ _ _ Hfold), map_app in Hts.
  cbn [map] in Hts.
  rewrite (plain_tokens _ Hfirst), (plain_tokens _ Hsecond) in Hts.
  change (token_of "%") with AnyRun in Hts.
  rewrite <- app_assoc in Hts. cbn [app] in Hts.
  eexists. split; [apply (get_customer_by_name_rows _ _ _ Ha Hr Hts) |].
  intros i f. rewrite filtered_rows. cbv beta. cbn [snd].
  by rewrite matches_contains_then.
Qed.

(** X16: [find_customers_by_name] refuses an empty text without going to
    the database; for any other text, once a pool is there, it says that
    no customers were found when the search returned no record, and
    otherwise heads its list with the number of records the search
    returned. *)
Theorem find_customers_by_name_answers (name : string) (pg : postgres) :
  find_customers_by_name EmptyString pg
  = (Return "Error: Customer name is required for searching.", pg)
  /\ (accepts pg = true -> name <> EmptyString ->
      exists rows,
        fst (get_customer_by_name name pg) = Return (VList (map dict rows))
        /\ (rows = [] ->
            fst (find_customers_by_name name pg)
            = Return ("No customers found with name containing: '" +:+ name +:+ "'"))
        /\ (rows <> [] ->
            exists rest,
              fst (find_customers_by_name name pg)
              = Return ("Found " +:+ pretty (length rows) +:+ " customer(s) matching '"
                        +:+ name +:+ "':" +:+ str1 nl +:+ rest))).
Proof.
  split; [done |]. intros Ha Hname.
  destruct (get_customer_by_name_shape name pg) as [rows Hrows].
  exists rows. split; [exact Hrows |].
  unfold find_customers_by_name.
  destruct name as [| c name]; [done |]. cbn [truthy negb].
  destruct (get_customer_by_name (String c name) pg) as [answer pg'].
  cbn [fst] in Hrows |- *. rewrite Hrows. cbn [bind]. rewrite truthy_records.
  split.
  - by intros ->.
  - intros Hne.
    destruct rows as [| row rows]; [done |].
    cbn [negb len bind iter]. rewrite length_map.
    destruct (list_entry_returns (row :: rows)) as [blocks ->].
    cbn [bind]. rewrite fold_left_append, !append_assoc. eauto.
Qed.

(** ** The weather adapter and tools *)

(** X17: [make_nws_request] on a URL that is not a string, as when a
    payload carries something else where a URL was expected, returns
    [None] whatever the service would answer. *)
Theorem make_nws_request_refuses_non_string (net : service) (url : value) :
  (forall u, url <> VStr u) -> make_nws_request net url = Return VNone.
Proof.
  intros Hurl. unfold make_nws_request, client_get.
  destruct url; try reflexivity. by destruct (Hurl s).
Qed.

(** X19: what [get_forecast] reads from the first payload it reads
    unguarded: when the body is truthy and [body["properties"]["forecast"]]
    raises, the same exception leaves [get_forecast]. *)
Theorem get_forecast_propagates (net : service) (latitude longitude : pyfloat)
    (points : Response) (points_data : value) (e : exn) :
  net (NWS_API_BASE +:+ "/points/" +:+ float_str latitude +:+ ","
       +:+ float_str longitude) = Return points ->
  is_success points = true -> json points = Return points_data ->
  truthy points_data = true ->
  (let* properties := getitem points_data "properties" in
   getitem properties "forecast") = Raise e ->
  get_forecast net latitude longitude = Raise e.
Proof.
  intros Hp Hok Hjson Htruthy Hraise. unfold get_forecast.
  rewrite (make_nws_request_success _ _ _ _ Hp Hok Hjson). cbn [bind].
  rewrite Htruthy. cbn [negb].
  destruct (getitem points_data "properties") as [properties |];
    cbn [bind] in Hraise |- *; [| by injection Hraise as ->].
  by rewrite Hraise.
Qed.

(** X20: on a successful payload with a non-empty list of features
    [get_alerts] formats every feature, in order, none left out: its
    result is the blocks of all the features joined by the separator. *)
Theorem get_alerts_lists_every_feature (net : service) (state : string)
    (response : Response) (d : list (string * value)) (feature : value)
    (features : list value) (texts : list string) :
  net (NWS_API_BASE +:+ "/alerts/active/area/" +:+ state) = Return response ->
  is_success response = true ->
  json response = Return (VDict d) ->
  dict_lookup "features" d = Some (VList (feature :: features)) ->
  Forall2 (fun feature text => format_alert feature = Return text)
          (feature :: features) texts ->
  get_alerts net state = Return (join separator texts)
  /\ length texts = length (feature :: features).
Proof.
  intros Hget Hok Hjson Hfeatures Hall. split; [| symmetry; eapply Forall2_length, Hall].
  unfold get_alerts.
  rewrite (make_nws_request_success _ _ _ _ Hget Hok Hjson).
  cbn [bind]. rewrite (truthy_dict_with_key _ _ _ Hfeatures); cbn [negb].
  rewrite (contains_dict_with_key _ _ _ Hfeatures); cbn [bind negb].
  rewrite (getitem_dict_with_key _ _ _ Hfeatures). cbn [bind truthy negb len iter].
  by rewrite (comprehension_Forall2 _ _ _ Hall).
Qed.

(** X21: a successful payload that is falsy, or an object without
    ["features"], gets the same text from [get_alerts] as a failed
    request. *)
Theorem get_alerts_without_features (net : service) (state : string)
    (response : Response) (data : value) :
  net (NWS_API_BASE +:+ "/alerts/active/area/" +:+ state) = Return response ->
  is_success response = true ->
  json response = Return data ->
  truthy data = false \/ (exists d, data = VDict d /\ dict_lookup "features" d = None) ->
  get_alerts net state = Return "Unable to fetch alerts or no alerts found.".
Proof.
  intros Hget Hok Hjson Hdata. unfold get_alerts.
  rewrite (make_nws_request_success _ _ _ _ Hget Hok Hjson). cbn [bind].
  destruct Hdata as [-> | (d & -> & Hnone)]; [done |].
  destruct (truthy (VDict d)); [| done]. cbn [negb contains]. by rewrite Hnone.
Qed.

(** X22: a successful payload that is a truthy number or [true], which
    has no [in], makes [get_alerts] raise [TypeError]. *)
Theorem get_alerts_on_scalar (net : service) (state : string) (response : Response)
    (data : value) :
  net (NWS_API_BASE +:+ "/alerts/active/area/" +:+ state) = Return response ->
  is_success response = true ->
  json response = Return data ->
  truthy data = true ->
  (forall s, data <> VStr s) -> (forall l, data <> VList l) -> (forall d, data <> VDict d) ->
  get_alerts net state = Raise TypeError.
Proof.
  intros Hget Hok Hjson Htruthy Hstr Hlist Hdict. unfold get_alerts.
  rewrite (make_nws_request_success _ _ _ _ Hget Hok Hjson). cbn [bind].
  rewrite Htruthy. cbn [negb].
  destruct data; try reflexivity; try discriminate.
  - by destruct (Hstr s).
  - by destruct (Hlist l).
  - by destruct (Hdict d).
Qed.

(** ** The layout of the texts *)

Lemma single_line_append (s t : string) :
  single_line (s +:+ t) = single_line s && single_line t.
Proof. unfold single_line. by rewrite has_char_append, negb_orb. Qed.

Lemma all_blank_single_line (s : string) : all_blank s = true -> single_line s = true.
Proof.
  unfold single_line. induction s as [| c s IH]; [done |]. cbn [all_blank has_char].
  intros [Hc Hs]%andb_prop. specialize (IH Hs). apply negb_true_iff in IH.
  rewrite IH, orb_false_r. unfold is_blank in Hc.
  destruct (Ascii.eqb_spec nl c) as [<- |]; [done | done].
Qed.

Lemma split_lines_nonempty (s : string) : split_lines s <> [].
Proof.
  induction s as [| c s IH]; [done |]. cbn [split_lines].
  destruct (Ascii.eqb c nl); [done |]. by destruct (split_lines s).
Qed.

Lemma split_lines_break (line rest : string) :
  single_line line = true ->
  split_lines (line +:+ String nl rest) = line :: split_lines rest.
Proof.
  unfold single_line. induction line as [| c line IH].
  - intros _. rewrite append_empty_l. cbn [split_lines]. by rewrite Ascii.eqb_refl.
  - cbn [has_char]. rewrite negb_orb. intros [Hc Hline]%andb_prop.
    rewrite append_cons. cbn [split_lines]. rewrite Ascii.eqb_sym.
    apply negb_true_iff in Hc. rewrite Hc, (IH Hline). reflexivity.
Qed.

Lemma split_lines_last (line : string) :
  single_line line = true -> split_lines line = [line].
Proof.
  unfold single_line. induction line as [| c line IH]; [done |].
  cbn [has_char]. rewrite negb_orb. intros [Hc Hline]%andb_prop.
  cbn [split_lines]. rewrite Ascii.eqb_sym.
  apply negb_true_iff in Hc. rewrite Hc, (IH Hline). reflexivity.
Qed.

Lemma all_blank_append (s t : string) : all_blank (s +:+ t) = all_blank s && all_blank t.
Proof.
  induction s as [| c s IH]; [done |].
  rewrite append_cons. cbn [all_blank]. by rewrite IH, andb_assoc.
Qed.

Lemma starts_with_text_not_blank (line : string) :
  starts_with_text line = true -> all_blank line = false.
Proof.
  destruct line as [| c line]; [done |]. cbn [starts_with_text all_blank].
  intros [Hc _]%andb_prop. apply negb_true_iff in Hc. by rewrite Hc.
Qed.

Lemma leading_blanks_indented (indent line : string) :
  all_blank indent = true -> starts_with_text line = true ->
  leading_blanks (indent +:+ line) = indent.
Proof.
  intros Hindent Hline. induction indent as [| c indent IH].
  - rewrite append_empty_l. destruct line as [| c line]; [done |].
    cbn [starts_with_text] in Hline. apply andb_prop in Hline as [Hc _].
    apply negb_true_iff in Hc. cbn [leading_blanks]. by rewrite Hc.
  - cbn [all_blank] in Hindent. apply andb_prop in Hindent as [Hc Hindent].
    rewrite append_cons. cbn [leading_blanks]. by rewrite Hc, (IH Hindent).
Qed.

Lemma prefix_append (s t : string) : String.prefix s (s +:+ t) = true.
Proof.
  induction s as [| c s IH]; [by destruct t |].
  rewrite append_cons. cbn [String.prefix].
  by destruct (ascii_dec c c).
Qed.

Lemma strip_prefix_append (indent line : string) :
  strip_prefix indent (indent +:+ line) = line.
Proof.
  induction indent as [| c indent IH]; [done |].
  rewrite append_cons. cbn [strip_prefix].
  by rewrite Ascii.eqb_refl, prefix_append.
Qed.

Lemma strip_prefix_empty (margin : string) : strip_prefix margin EmptyString = EmptyString.
Proof. by destruct margin. Qed.

Lemma common_prefix_same (s : string) : common_prefix s s = s.
Proof.
  induction s as [| c s IH]; [done |]. cbn [common_prefix].
  by rewrite Ascii.eqb_refl, IH.
Qed.

Lemma common_prefix_of_copies (indent : string) (lines : list string) :
  fold_left common_prefix (map (fun _ => indent) lines) indent = indent.
Proof.
  induction lines as [| line lines IH]; [done |].
  cbn [map fold_left]. by rewrite common_prefix_same.
Qed.

Lemma split_lines_indented (indent : string) (lines : list string) :
  all_blank indent = true ->
  Forall (fun line => single_line line = true) lines ->
  split_lines (indented indent lines)
  = EmptyString :: map (String.append indent) lines ++ [indent].
Proof.
  intros Hindent Hlines. unfold indented. cbn [split_lines].
  rewrite Ascii.eqb_refl. f_equal.
  induction Hlines as [| line lines Hline _ IH]; cbn [indented_lines map app].
  - by apply split_lines_last, all_blank_single_line.
  - rewrite <- append_assoc, split_lines_break, IH; [done |].
    by rewrite single_line_append, (all_blank_single_line _ Hindent), Hline.
Qed.

Lemma concat_lines (lines : list string) :
  String.concat (str1 nl) (lines ++ [EmptyString]) = each_on_its_line lines.
Proof.
  induction lines as [| line lines IH]; [done |].
  cbn [app each_on_its_line]. rewrite <- IH.
  cbn [String.concat]. by destruct lines.
Qed.

(** [dedent] on a literal whose lines all start with text behind the same
    indentation: the indentation goes, the lines stay. *)
Lemma dedent_indented (indent : string) (lines : list string) :
  all_blank indent = true ->
  Forall (fun line => single_line line = true) lines ->
  Forall (fun line => starts_with_text line = true) lines ->
  dedent (indented indent lines) = String nl (each_on_its_line lines).
Proof.
  intros Hindent Hsingle Htext. unfold dedent.
  rewrite (split_lines_indented _ _ Hindent Hsingle).
  assert (map (fun l => if all_blank l then EmptyString else l)
              (EmptyString :: map (String.append indent) lines ++ [indent])
          = EmptyString :: map (String.append indent) lines ++ [EmptyString]) as ->.
  { cbn [map all_blank]. f_equal. rewrite map_app. cbn [map]. rewrite Hindent.
    f_equal. clear Hsingle. induction Htext as [| line lines Hline _ IH]; [done |].
    cbn [map]. rewrite IH, all_blank_append, (starts_with_text_not_blank _ Hline).
    by rewrite andb_false_r. }
  assert (map leading_blanks
              (filter (fun l => negb (all_blank l))
                      (EmptyString :: map (String.append indent) lines ++ [EmptyString]))
          = map (fun _ => indent) lines) as ->.
  { rewrite filter_cons_False by (cbn; naive_solver).
    rewrite filter_app, (filter_cons_False _ EmptyString) by (cbn; naive_solver).
    rewrite filter_nil, app_nil_r.
    clear Hsingle. induction Htext as [| line lines Hline _ IH]; [done |].
    cbn [map]. rewrite filter_cons_True.
    - cbn [map]. by rewrite IH, (leading_blanks_indented _ _ Hindent Hline).
    - rewrite all_blank_append, (starts_with_text_not_blank _ Hline), andb_false_r.
      done. }
  assert (forall margin,
             margin = indent \/ lines = [] ->
             join (str1 nl)
                  (map (strip_prefix margin)
                       (EmptyString :: map (String.append indent) lines
                          ++ [EmptyString]))
             = String nl (each_on_its_line lines)) as Hjoin.
  { intros margin Hmargin. cbn [map]. rewrite map_app, strip_prefix_empty. cbn [map].
    rewrite strip_prefix_empty.
    assert (map (strip_prefix margin) (map (String.append indent) lines) = lines) as ->.
    { destruct Hmargin as [-> | ->]; [| done].
      rewrite map_map. induction lines as [| line lines IH]; [done |].
      cbn [map]. rewrite strip_prefix_append. f_equal. apply IH.
      - by inversion Hsingle.
      - by inversion Htext. }
    unfold join. rewrite <- concat_lines. cbn [String.concat].
    by destruct lines. }
  destruct lines as [| line lines].
  - cbn [map]. apply (Hjoin EmptyString). by right.
  - cbn [map]. rewrite common_prefix_of_copies.
    change (EmptyString :: (indent +:+ line) :: map (String.append indent) lines
              ++ [EmptyString])
      with (EmptyString :: map (String.append indent) (line :: lines) ++ [EmptyString]).
    apply Hjoin. by left.
Qed.

Lemma pretty_N_go_single_line (x : N) (s : string) :
  has_char nl (pretty_N_go x s) = has_char nl s.
Proof.
  revert s. induction (N.lt_wf_0 x) as [x _ IH]; intros s.
  destruct (decide (x = 0)%N) as [-> | Hx]; [by rewrite pretty_N_go_0 |].
  rewrite pretty_N_go_step by lia.
  rewrite IH by (apply N.div_lt; lia).
  cbn [has_char]. unfold pretty_N_char.
  by repeat case_match.
Qed.

Lemma pretty_Z_single_line (n : Z) : single_line (pretty n) = true.
Proof.
  unfold single_line.
  assert (forall p : positive, has_char nl (pretty p) = false) as Hpos.
  { intros p. unfold pretty, pretty_positive, pretty, pretty_N.
    case_decide; [done |]. by rewrite pretty_N_go_single_line. }
  destruct n as [| p | p]; [done | |].
  - unfold pretty, pretty_Z. by rewrite Hpos.
  - unfold pretty, pretty_Z. rewrite has_char_append. fold (pretty p). by rewrite Hpos.
Qed.

Lemma nullable_single_line (o : option Z) : single_line (str (nullable o)) = true.
Proof. destruct o as [n |]; [apply pretty_Z_single_line | done]. Qed.

Ltac lines_are_single :=
  repeat first
    [ apply Forall_nil
    | apply Forall_cons; split
    | rewrite single_line_append
    | rewrite pretty_Z_single_line
    | rewrite nullable_single_line
    | progress rewrite ?andb_true_r
    | assumption
    | reflexivity ].

(** X23: for a customer whose name and email have no line break,
    [get_customer] returns the heading and the five fields, one to a line
    with its label, in the order identifier, name, email, age, preferred
    package, an integer in decimal and a NULL as [None]; the loop body of
    the two listing tools writes the same five lines and a rule under
    them. *)
Theorem customer_text (i : Z) (pg : postgres) (f : fields) :
  accepts pg = true -> rejects pg (SelectById i) = false ->
  customers pg !! i = Some f ->
  single_line (name f) = true -> single_line (email f) = true ->
  fst (get_customer i pg)
  = Return (String nl (each_on_its_line
                         ["Customer Details:";
                          "ID: " +:+ pretty i;
                          "Name: " +:+ name f;
                          "Email: " +:+ email f;
                          "Age: " +:+ str (nullable (age f));
                          "Prefer Package: " +:+ str (nullable (prefer_package f))]))
  /\ list_entry (dict (i, f))
     = Return (String nl (each_on_its_line
                            ["ID: " +:+ pretty i;
                             "Name: " +:+ name f;
                             "Email: " +:+ email f;
                             "Age: " +:+ str (nullable (age f));
                             "Prefer Package: " +:+ str (nullable (prefer_package f));
                             "---"])).
Proof.
  intros Ha Hr Hf Hname Hemail. split.
  - pose proof (get_customer_by_id_answer i pg) as Hanswer.
    rewrite Ha, Hr, Hf in Hanswer. cbn [andb negb] in Hanswer.
    unfold get_customer. destruct (get_customer_by_id i pg) as [answer pg'].
    cbn [fst] in Hanswer |- *. rewrite Hanswer.
    rewrite <- (dedent_indented "    "); [reflexivity | reflexivity | |].
    + lines_are_single.
    + repeat constructor.
  - rewrite <- (dedent_indented "        "); [reflexivity | reflexivity | |].
    + lines_are_single.
    + repeat constructor.
Qed.

(** X24: for an alert whose properties are an object, [format_alert]
    writes five labelled lines in a fixed order, each with the value under
    its key or, when the key is missing, with the fallback of that line; a
    key that is there with [null] is written as [None].  The values are
    taken to have no line break. *)
Theorem format_alert_text (d props : list (string * value)) :
  dict_lookup "properties" d = Some (VDict props) ->
  Forall (fun line => single_line line = true)
         [shown props "event" "Unknown"; shown props "areaDesc" "Unknown";
          shown props "severity" "Unknown";
          shown props "description" "No description available";
          shown props "instruction" "No specific instructions provided"] ->
  format_alert (VDict d)
  = Return (String nl (each_on_its_line
                         ["Event: " +:+ shown props "event" "Unknown";
                          "Area: " +:+ shown props "areaDesc" "Unknown";
                          "Severity: " +:+ shown props "severity" "Unknown";
                          "Description: "
                            +:+ shown props "description" "No description available";
                          "Instructions: "
                            +:+ shown props "instruction"
                                  "No specific instructions provided"]))
  /\ (dict_lookup "instruction" props = Some VNone ->
      shown props "instruction" "No specific instructions provided" = "None").
Proof.
  intros Hprops Hsingle. split; [| by unfold shown; intros ->].
  unfold format_alert. rewrite (getitem_dict_with_key _ _ _ Hprops).
  cbn [bind get].
  rewrite <- (dedent_indented "        "); [reflexivity | reflexivity | |].
  - inversion_clear Hsingle as [| ? ? H1 Hrest]. inversion_clear Hrest as [| ? ? H2 Hrest'].
    inversion_clear Hrest' as [| ? ? H3 Hrest]. inversion_clear Hrest as [| ? ? H4 Hrest'].
    inversion_clear Hrest' as [| ? ? H5 _].
    repeat constructor; rewrite single_line_append; by rewrite ?H1, ?H2, ?H3, ?H4, ?H5.
  - repeat constructor.
Qed.

(** X25: [format_period] returns a text exactly for a period that is an
    object with all six keys it reads; for a period whose values have no
    line break and whose name does not start with a blank, the text is
    four lines: the name with a colon, the temperature with the two
    characters of the source and the unit, the wind speed and direction,
    and the detailed forecast. *)
Theorem format_period_text (period : value) :
  ((exists text, format_period period = Return text)
   <-> exists d, period = VDict d
                 /\ Forall (fun key => is_Some (dict_lookup key d)) period_keys)
  /\ (forall d name temperature unit speed direction detail,
         period = VDict d ->
         dict_lookup "name" d = Some name ->
         dict_lookup "temperature" d = Some temperature ->
         dict_lookup "temperatureUnit" d = Some unit ->
         dict_lookup "windSpeed" d = Some speed ->
         dict_lookup "windDirection" d = Some direction ->
         dict_lookup "detailedForecast" d = Some detail ->
         Forall (fun v => single_line (str v) = true)
                [name; temperature; unit; speed; direction; detail] ->
         starts_with_text (str name +:+ ":") = true ->
         format_period period
         = Return (String nl (each_on_its_line
                                [str name +:+ ":";
                                 "Temperature: " +:+ str temperature +:+ degree
                                   +:+ str unit;
                                 "Wind: " +:+ str speed +:+ " " +:+ str direction;
                                 "Forecast: " +:+ str detail]))).
Proof.
  split.
  - split.
    + intros [text Htext]. unfold format_period in Htext.
      destruct period as [| | | | | | d]; try discriminate. exists d. split; [done |].
      cbn [getitem] in Htext. unfold period_keys.
      repeat match type of Htext with
             | context [dict_lookup ?k d] =>
                 let H := fresh "Hkey" in
                 destruct (dict_lookup k d) eqn:H; cbn [bind] in Htext;
                 [| discriminate]
             end.
      repeat constructor; eauto.
    + intros (d & -> & Hkeys). unfold period_keys in Hkeys.
      repeat match goal with
             | H : Forall _ (_ :: _) |- _ => inversion_clear H
             end.
      repeat match goal with
             | H : is_Some _ |- _ => destruct H as [? H]
             end.
      unfold format_period. cbn [getitem].
      repeat match goal with
             | H : dict_lookup _ d = Some _ |- _ => rewrite H; clear H
             end.
      cbn [bind]. eauto.
  - intros d name temperature unit speed direction detail -> Hn Ht Hu Hs Hd Hf
      Hsingle Hstart.
    unfold format_period. cbn [getitem]. rewrite Hn, Ht, Hu, Hs, Hd, Hf. cbn [bind].
    inversion_clear Hsingle as [| ? ? H1 Hrest]. inversion_clear Hrest as [| ? ? H2 Hrest'].
    inversion_clear Hrest' as [| ? ? H3 Hrest]. inversion_clear Hrest as [| ? ? H4 Hrest'].
    inversion_clear Hrest' as [| ? ? H5 Hrest]. inversion_clear Hrest as [| ? ? H6 _].
    rewrite <- (dedent_indented "            ").
    + f_equal. f_equal. unfold indented. cbn [indented_lines].
      rewrite !append_assoc. reflexivity.
    + reflexivity.
    + repeat constructor; rewrite ?single_line_append;
        by rewrite ?H1, ?H2, ?H3, ?H4, ?H5, ?H6.
    + repeat constructor. exact Hstart.
Qed.

(** ** The summary for the log *)

Lemma concat_cons (ch : string) (chars : list string) :
  String.concat EmptyString (ch :: chars) = ch +:+ String.concat EmptyString chars.
Proof. destruct chars; [by rewrite append_empty_r | done]. Qed.

Lemma concat_app (chars chars' : list string) :
  String.concat EmptyString (chars ++ chars')
  = String.concat EmptyString chars +:+ String.concat EmptyString chars'.
Proof.
  induction chars as [| ch chars IH]; [done |].
  cbn [app]. by rewrite !concat_cons, IH, append_assoc.
Qed.

(** The first character of a string starts with its first byte. *)
Lemma characters_first_byte (s ch : string) (rest : list string) :
  characters s = ch :: rest ->
  exists c t u, s = String c t /\ ch = String c u.
Proof.
  destruct s as [| c s]; [done |]. cbn [characters].
  destruct (characters s) as [| ch' rest']; [intros [= <- _]; by eexists _, _, _ |].
  destruct (negb (is_ascii c) && continues s); intros [= <- _]; by eexists _, _, _.
Qed.

Lemma continues_first_characters (s ch : string) (rest chars : list string) :
  characters s = ch :: rest ->
  continues (String.concat EmptyString (ch :: chars)) = continues s.
Proof.
  intros Hchars.
  destruct (characters_first_byte _ _ _ Hchars) as (c & t & u & -> & ->).
  by rewrite concat_cons, append_cons.
Qed.

(** The first [n] characters of a string are [n] characters, or all of
    them when there are fewer. *)
Lemma characters_firstn (n : nat) (s : string) :
  characters (String.concat EmptyString (firstn n (characters s)))
  = firstn n (characters s).
Proof.
  revert n. induction s as [| c s IH]; intros n; [by destruct n |].
  destruct n as [| n]; [done |]. cbn [characters].
  destruct (characters s) as [| ch rest] eqn:Hchars;
    [cbn [firstn]; by rewrite firstn_nil |].
  destruct (negb (is_ascii c) && continues s) eqn:Hgroup; cbn [firstn].
  - rewrite concat_cons, append_cons, <- concat_cons.
    change (ch :: firstn n rest) with (firstn (S n) (ch :: rest)).
    cbn [characters]. rewrite (IH (S n)). cbn [firstn].
    by rewrite (continues_first_characters _ _ _ _ Hchars), Hgroup.
  - rewrite concat_cons. change (str1 c +:+ ?x) with (String c x).
    cbn [characters]. rewrite (IH n).
    destruct n as [| n]; [done |]. cbn [firstn].
    by rewrite (continues_first_characters _ _ _ _ Hchars), Hgroup.
Qed.

Lemma dict_set_fresh (k : string) (v : value) (d : list (string * value)) :
  k ∉ map fst d -> dict_set k v d = d ++ [(k, v)].
Proof.
  induction d as [| [k' v'] d IH]; [done |]. cbn [map fst dict_set app].
  intros Hk. apply not_elem_of_cons in Hk as [Hne Hk].
  destruct (String.eqb_spec k k') as [-> |]; [done |]. by rewrite IH.
Qed.

Lemma summary_of_distinct_keys (d done_ : list (string * value)) :
  NoDup (map fst (done_ ++ d)) ->
  fold_left (fun summary kv => dict_set (fst kv) (summarize (snd kv)) summary) d
            (map (fun kv => (fst kv, summarize (snd kv))) done_)
  = map (fun kv => (fst kv, summarize (snd kv))) (done_ ++ d).
Proof.
  revert done_. induction d as [| [k v] d IH]; intros done_ Hkeys.
  - by rewrite app_nil_r.
  - cbn [fold_left fst snd]. rewrite dict_set_fresh.
    + replace (done_ ++ (k, v) :: d) with ((done_ ++ [(k, v)]) ++ d) in Hkeys |- *
        by (by rewrite <- app_assoc).
      rewrite <- (IH _ Hkeys). by rewrite map_app.
    + rewrite map_map. cbn [fst]. rewrite map_app in Hkeys.
      apply NoDup_app in Hkeys as (_ & Hdisjoint & _).
      intros Hin. apply (Hdisjoint k Hin). cbn. left.
Qed.

(** X26: [truncate_json_summary] never raises.  For a falsy payload and
    for a truthy payload that is not an object it returns its two fixed
    texts; for an object with distinct keys it returns the [str] of a dict
    with the same keys in the same order, each value summarised: an object
    or a list by the number of its entries, a string of at most 50
    characters by itself, a longer string by its first 50 characters and
    three dots, anything else by itself. *)
Theorem truncate_json_summary_answers (data : value) :
  (exists summary, truncate_json_summary data = Return summary)
  /\ (truthy data = false -> truncate_json_summary data = Return "empty data")
  /\ (truthy data = true -> (forall d, data <> VDict d) ->
      truncate_json_summary data = Return "data summary unavailable")
  /\ (forall d,
         data = VDict d -> d <> [] -> NoDup (map fst d) ->
         truncate_json_summary data
         = Return (str (VDict (map (fun kv => (fst kv, summarize (snd kv))) d))))
  /\ (forall d, summarize (VDict d) = VStr ("{...} (" +:+ pretty (length d) +:+ " keys)"))
  /\ (forall l, summarize (VList l) = VStr ("[...] (" +:+ pretty (length l) +:+ " items)"))
  /\ (forall v,
         (forall s, v <> VStr s) -> (forall l, v <> VList l) -> (forall d, v <> VDict d) ->
         summarize v = v)
  /\ (forall s,
         ((length (characters s) <= 50)%nat -> summarize (VStr s) = VStr s)
         /\ ((50 < length (characters s))%nat ->
             exists head rest,
               s = head +:+ rest
               /\ characters head = firstn 50 (characters s)
               /\ length (characters head) = 50%nat
               /\ summarize (VStr s) = VStr (head +:+ "..."))).
Proof.
  split; [apply truncate_json_summary_returns |].
  split; [| split; [| split; [| split; [| split; [| split]]]]].
  - intros Hfalsy. unfold truncate_json_summary. by rewrite Hfalsy.
  - intros Htruthy Hdict. unfold truncate_json_summary. rewrite Htruthy. cbn [negb].
    destruct data; try reflexivity. by destruct (Hdict d).
  - intros d -> Hne Hkeys. unfold truncate_json_summary.
    destruct d as [| kv d]; [done |]. cbn [truthy negb items bind].
    exact (f_equal (fun summary => Return (str (VDict summary)))
                   (summary_of_distinct_keys (kv :: d) [] Hkeys)).
  - done.
  - done.
  - intros v Hstr Hlist Hdict. destruct v; try reflexivity.
    + by destruct (Hstr s).
    + by destruct (Hlist l).
    + by destruct (Hdict d).
  - intros s. cbn [summarize]. split.
    + intros Hshort. apply Nat.ltb_ge in Hshort. by rewrite Hshort.
    + intros Hlong. exists (first_characters 50 s),
        (String.concat EmptyString (skipn 50 (characters s))).
      split; [| split; [| split]].
      * unfold first_characters.
        by rewrite <- concat_app, firstn_skipn, characters_concat.
      * unfold first_characters. by rewrite characters_firstn.
      * unfold first_characters. rewrite characters_firstn, length_firstn. lia.
      * apply Nat.ltb_lt in Hlong. by rewrite Hlong.
Qed.

(** ** What the writing tools answer *)

(** X27: on a server that answers, [create_customer] with a name and an
    email that are non-empty and free of line breaks returns the heading
    and the new record, with the identifier the server assigned and a
    field that was not supplied written as [None]; [modify_customer] with
    at least one truthy field returns its heading and the merged record. *)
Theorem writing_tools_text (pg : postgres) :
  accepts pg = true -> (forall s, rejects pg s = false) ->
  (forall n e a p,
      n <> EmptyString -> e <> EmptyString ->
      single_line n = true -> single_line e = true ->
      customers pg !! next_id pg = None ->
      fst (create_customer (Some n) (Some e) a p pg)
      = Return (String nl (each_on_its_line
                             ["Customer created successfully:";
                              "ID: " +:+ pretty (next_id pg);
                              "Name: " +:+ n;
                              "Email: " +:+ e;
                              "Age: " +:+ str (nullable a);
                              "Prefer Package: " +:+ str (nullable p)])))
  /\ (forall i n e a p current,
         customers pg !! i = Some current ->
         any [optional n; optional e; nullable a; nullable p] = true ->
         single_line (keep n (name current)) = true ->
         single_line (keep e (email current)) = true ->
         fst (modify_customer i n e a p pg)
         = Return (String nl (each_on_its_line
                                ["Customer updated successfully:";
                                 "ID: " +:+ pretty i;
                                 "Name: " +:+ keep n (name current);
                                 "Email: " +:+ keep e (email current);
                                 "Age: " +:+ str (nullable (keep_nullable a (age current)));
                                 "Prefer Package: "
                                   +:+ str (nullable
                                              (keep_nullable p (prefer_package current)))]))).
Proof.
  intros Ha Hr. split.
  - intros n e a p Hn He Hline_n Hline_e Hfresh.
    destruct (add_customer_serving n e a p pg Ha Hr Hfresh) as [Hret _].
    destruct n as [| c n]; [done |]. destruct e as [| c' e]; [done |].
    unfold create_customer.
    destruct (add_customer (String c n) (String c' e) a p pg) as [answer pg'].
    cbn [fst] in Hret |- *. rewrite Hret.
    rewrite <- (dedent_indented "    "); [reflexivity | reflexivity | |].
    + lines_are_single.
    + repeat constructor.
  - intros i n e a p current Hcur Hany Hline_n Hline_e.
    destruct (update_customer_serving i n e a p pg current Ha Hr Hcur) as (Hret & _).
    unfold modify_customer. rewrite Hany. cbn [negb].
    destruct (update_customer i n e a p pg) as [answer pg'].
    cbn [fst] in Hret |- *. rewrite Hret.
    rewrite <- (dedent_indented "    "); [reflexivity | reflexivity | |].
    + lines_are_single.
    + repeat constructor.
Qed.

(** X28: [update_customer] cannot take an age or a preferred package away:
    whatever the request and whatever the server does, a customer that had
    one before the call has one after it. *)
Theorem update_customer_keeps_optional_fields (i : Z) (n e : option string)
    (a p : option Z) (pg : postgres) (current : fields) :
  customers pg !! i = Some current ->
  exists after,
    customers (snd (update_customer i n e a p pg)) !! i = Some after
    /\ (is_Some (age current) -> is_Some (age after))
    /\ (is_Some (prefer_package current) -> is_Some (prefer_package after)).
Proof.
  intros Hcur.
  unfold update_customer, get_connection_pool, create_pool.
  destruct (accepts pg); cbn [except_Exception bind is_Exception];
    [| by exists current].
  unfold fetchrow at 1. unfold run. cbn [note rejects customers].
  destruct (rejects pg (SelectById i)); cbn [bind fst snd];
    [by exists current |].
  rewrite Hcur. cbn [bind fst snd head].
  unfold fetchrow, run. cbn [note rejects customers].
  match goal with
  | |- context [rejects pg ?u] => destruct (rejects pg u)
  end; cbn [bind fst snd]; [by exists current |].
  rewrite Hcur. cbn [snd close note store customers].
  eexists. rewrite lookup_insert_eq. split; [reflexivity |].
  cbn [age prefer_package]. split; intros [x Hx]; rewrite Hx.
  - destruct a; by eexists.
  - destruct p; by eexists.
Qed.

(** X18: [get_forecast] has one text for a first request that fails or
    brings a falsy body, and another for a second request that fails, be
    it that the upstream call fails or that the forecast URL in the first
    payload is not a string. *)
Theorem get_forecast_unable (net : service) (latitude longitude : pyfloat) :
  (upstream_fails net (NWS_API_BASE +:+ "/points/" +:+ float_str latitude +:+ ","
                       +:+ float_str longitude) = true ->
   get_forecast net latitude longitude
   = Return "Unable to fetch forecast data for this location.")
  /\ (forall points points_data,
         net (NWS_API_BASE +:+ "/points/" +:+ float_str latitude +:+ ","
              +:+ float_str longitude) = Return points ->
         is_success points = true -> json points = Return points_data ->
         truthy points_data = false ->
         get_forecast net latitude longitude
         = Return "Unable to fetch forecast data for this location.")
  /\ (forall points points_data forecast_url,
         net (NWS_API_BASE +:+ "/points/" +:+ float_str latitude +:+ ","
              +:+ float_str longitude) = Return points ->
         is_success points = true -> json points = Return points_data ->
         (let* properties := getitem points_data "properties" in
          getitem properties "forecast") = Return forecast_url ->
         (forall u, forecast_url = VStr u -> upstream_fails net u = true) ->
         get_forecast net latitude longitude = Return "Unable to fetch detailed forecast.").
Proof.
  split; [| split].
  - intros Hfail. unfold get_forecast.
    by rewrite (make_nws_request_failure _ _ Hfail).
  - intros points points_data Hp Hok Hjson Hfalsy. unfold get_forecast.
    rewrite (make_nws_request_success _ _ _ _ Hp Hok Hjson). cbn [bind].
    by rewrite Hfalsy.
  - intros points points_data forecast_url Hp Hok Hjson Hurl Hfail.
    unfold get_forecast.
    rewrite (make_nws_request_success _ _ _ _ Hp Hok Hjson). cbn [bind].
    rewrite (getitem_path_truthy _ _ _ _ Hurl). cbn [negb].
    destruct (getitem points_data "properties") as [properties |];
      cbn [bind] in Hurl |- *; [| discriminate].
    rewrite Hurl. cbn [bind].
    assert (make_nws_request net forecast_url = Return VNone) as ->; [| done].
    destruct forecast_url;
      try (apply make_nws_request_refuses_non_string; discriminate).
    by apply make_nws_request_failure, Hfail.
Qed.

End properties.

(** * The theorems at sample servers, services and payloads *)

#[local] Existing Instance samples.latin_1.

Lemma make_nws_request_sentinel_witness :
  make_nws_request (samples.always (Return samples.no_features)) (VStr "https://api.weather.gov/alerts/active/area/KS")
  = Return (VDict [("features", VList [])])
  /\ make_nws_request (samples.always (Return samples.not_found)) (VStr "https://api.weather.gov/alerts/active/area/KS")
     = Return VNone
  /\ make_nws_request (samples.always (Raise TimeoutException)) (VStr "https://api.weather.gov/alerts/active/area/KS")
     = Return VNone
  /\ make_nws_request (samples.always (Return samples.garbled)) (VStr "https://api.weather.gov/alerts/active/area/KS")
     = Return VNone.
Proof.
  split; [| split; [| split]].
  - apply (proj1 (make_nws_request_sentinel _ _) samples.no_features); reflexivity.
  - apply (proj1 (proj2 (make_nws_request_sentinel _ _)) samples.not_found); reflexivity.
  - apply (proj1 (proj2 (proj2 (make_nws_request_sentinel _ _))) TimeoutException);
      reflexivity.
  - apply (proj1 (proj2 (proj2 (proj2 (make_nws_request_sentinel _ _))))
             samples.garbled JSONDecodeError); reflexivity.
Defined.

Lemma get_alerts_empty_and_failed_witness :
  get_alerts (samples.always (Return samples.no_features)) "KS"
  = Return "No active alerts for this state."
  /\ get_alerts (samples.always (Raise TimeoutException)) "KS"
     = Return "Unable to fetch alerts or no alerts found.".
Proof.
  split.
  - apply (proj1 (get_alerts_empty_and_failed _ _) samples.no_features
             [("features", VList [])]); reflexivity.
  - apply (proj1 (proj2 (get_alerts_empty_and_failed _ _))); reflexivity.
Defined.

Lemma get_forecast_first_five_witness :
  get_forecast samples.kansas samples.here samples.there
  = (let* forecasts := comprehension format_period (firstn 5 samples.seven_periods) in
     Return (join separator forecasts)).
Proof.
  refine (proj1 (get_forecast_first_five samples.kansas samples.here samples.there
                   (samples.ok samples.points_body) (samples.ok samples.forecast_body)
                   samples.points_body samples.forecast_body samples.grid_url
                   samples.seven_periods _ _ _ _ _ _ _ _)); reflexivity.
Defined.

Lemma update_customer_merges_witness :
  fst (update_customer 2 None (Some "robert@example.org") None None samples.ann_and_bob)
  = Return (dict (2%Z, {| name := "Bob"; email := "robert@example.org";
                           age := Some 41%Z; prefer_package := Some 2%Z |}))
  /\ fst (update_customer 9 None (Some "robert@example.org") None None
                          samples.ann_and_bob)
     = Return VNone.
Proof.
  split.
  - destruct (proj1 (update_customer_merges 2 None (Some "robert@example.org") None
                       None samples.ann_and_bob) samples.bob)
      as (merged & Hret & _ & _ & Hname & _ & Hage & Hpackage & _ & Hemail & _);
      [reflexivity | reflexivity | reflexivity |].
    rewrite Hret. destruct merged as [n e a p]; simpl in *.
    rewrite (Hname eq_refl), (Hage eq_refl), (Hpackage eq_refl), (Hemail _ eq_refl).
    reflexivity.
  - apply (proj2 (update_customer_merges 9 None (Some "robert@example.org") None None
                    samples.ann_and_bob)). reflexivity.
Defined.

Lemma update_customer_without_change_witness :
  fst (update_customer 2 None None None None samples.ann_and_bob)
  = Return (dict (2%Z, samples.bob))
  /\ fst (update_customer 2 (Some "Bob") None (Some 41%Z) None samples.ann_and_bob)
     = Return (dict (2%Z, samples.bob))
  /\ fst (modify_customer 2 (Some "Bob") None (Some 41%Z) None samples.ann_and_bob)
     = Return (dedent (indented "    "
                         ["Customer updated successfully:"; "ID: 2"; "Name: Bob";
                          "Email: bob@example.org"; "Age: 41"; "Prefer Package: 2"]))
  /\ customers (snd (modify_customer 2 (Some "Bob") None (Some 41%Z) None
                                     samples.ann_and_bob))
     = customers samples.ann_and_bob.
Proof.
  split.
  - refine (proj1 (proj2 (update_customer_without_change 2 None None None None
                            samples.ann_and_bob samples.bob _ _ _ _ _ _ _)));
      first [reflexivity | by left].
  - assert (H := update_customer_without_change 2 (Some "Bob") None (Some 41%Z) None
                   samples.ann_and_bob samples.bob eq_refl (fun _ => eq_refl) eq_refl
                   (or_intror eq_refl) (or_introl eq_refl) (or_intror eq_refl)
                   (or_introl eq_refl)).
    destruct H as (_ & Hrecord & _ & Htool & _).
    split; [exact Hrecord |]. exact (Htool eq_refl).
Defined.

(** C7, the request the claim does not hold for: Ann is stored under the
    identifier 1, and [modify_customer] invoked on her with no field
    returns the missing-field text, where her record was to come back;
    nothing is sent to the database. *)
Lemma modify_customer_without_fields_is_refused :
  fst (get_customer_by_id 1 samples.only_ann) = Return (dict (1%Z, samples.ann))
  /\ modify_customer 1 None None None None samples.only_ann
     = (Return "Error: At least one field (name, email, or phone) must be provided for update.",
        samples.only_ann)
  /\ fst (modify_customer 1 None None None None samples.only_ann)
     <> Return (dedent (indented "    "
                          ["Customer updated successfully:"; "ID: 1"; "Name: Ann";
                           "Email: ann@example.org"; "Age: None";
                           "Prefer Package: None"])).
Proof. split; [reflexivity | split; [reflexivity | discriminate]]. Qed.

Lemma create_customer_requires_name_and_email_witness :
  create_customer (Some EmptyString) (Some "cy@example.org") (Some 30%Z) None
                  samples.only_ann
  = (Return "Error: Customer name and email are required.", samples.only_ann)
  /\ create_customer (Some "Cy") None None None samples.only_ann
     = (Return "Error: Customer name and email are required.", samples.only_ann)
  /\ customers (snd (create_customer (Some "Cy") (Some "cy@example.org") None None
                                     samples.only_ann))
     = <[2%Z := {| name := "Cy"; email := "cy@example.org"; age := None;
                   prefer_package := None |}]> (customers samples.only_ann).
Proof.
  split; [| split].
  - apply (proj1 (create_customer_requires_name_and_email _ _ _ _ _)).
    left; reflexivity.
  - apply (proj1 (create_customer_requires_name_and_email _ _ _ _ _)).
    right; reflexivity.
  - refine (proj2 (proj2 (proj2 (create_customer_requires_name_and_email
                                   (Some "Cy") (Some "cy@example.org") None None
                                   samples.only_ann)
                                "Cy" "cy@example.org" _ _ _ _)) _ _ _);
      first [reflexivity | discriminate].
Defined.

Lemma adapters_without_pool_witness :
  get_customers samples.unreachable = (Return (VList []), samples.unreachable)
  /\ delete_customer 1 samples.unreachable = (Return false, samples.unreachable).
Proof.
  split.
  - apply (proj1 (adapters_without_pool samples.unreachable eq_refl)).
  - apply (proj2 (proj2 (proj2 (proj2 (proj2
             (adapters_without_pool samples.unreachable eq_refl)))))).
Defined.

Lemma adapters_on_rejected_statement_witness :
  fst (get_customers samples.failing) = Return (VList [])
  /\ fst (get_customer_by_id 1 samples.failing) = Return VNone
  /\ fst (add_customer "Cy" "cy@example.org" None None samples.failing) = Return VNone
  /\ fst (delete_customer 1 samples.failing) = Return false
  /\ fst (get_customer_by_name "bo" samples.failing) = Return (VList []).
Proof.
  pose proof (adapters_on_rejected_statement samples.failing eq_refl)
    as (Hlist & Hget & Hadd & _ & Hdelete & Hsearch).
  split; [| split; [| split; [| split]]].
  - by apply Hlist.
  - by apply (Hget 1%Z).
  - by apply Hadd.
  - by apply Hdelete.
  - by apply Hsearch.
Defined.

Lemma failed_calls_leave_the_table_witness :
  customers (snd (update_customer 9 None (Some "x@example.org") None None
                                  samples.ann_and_bob))
  = customers samples.ann_and_bob.
Proof.
  apply (proj1 (proj2 (failed_calls_leave_the_table samples.ann_and_bob))).
  reflexivity.
Defined.

Lemma add_customer_then_get_witness :
  sequence_ahead samples.ann_and_bob
  /\ sequence_ahead (snd (add_customer "Cy" "cy@example.org" None (Some 2%Z)
                                       samples.ann_and_bob))
  /\ fst (add_customer "Cy" "cy@example.org" None (Some 2%Z) samples.ann_and_bob)
     = Return (dict (3%Z, {| name := "Cy"; email := "cy@example.org"; age := None;
                             prefer_package := Some 2%Z |}))
  /\ fst (get_customer_by_id 3 (snd (add_customer "Cy" "cy@example.org" None (Some 2%Z)
                                                  samples.ann_and_bob)))
     = fst (add_customer "Cy" "cy@example.org" None (Some 2%Z) samples.ann_and_bob).
Proof.
  assert (sequence_ahead samples.ann_and_bob) as Hahead.
  { intros j f Hj. cbn in Hj |- *.
    apply lookup_insert_Some in Hj as [[<- _] | [_ Hj]]; [lia |].
    apply lookup_singleton_Some in Hj as [<- _]. lia. }
  destruct (add_customer_then_get "Cy" "cy@example.org" None (Some 2%Z)
              samples.ann_and_bob Hahead) as (_ & (Hkept & _) & Hadded).
  destruct (Hadded eq_refl (fun _ => eq_refl)) as (Hrecord & _ & Hback & _).
  split; [exact Hahead | split; [apply Hkept | split; [exact Hrecord | exact Hback]]].
Defined.

Lemma delete_customer_then_get_witness :
  fst (get_customer_by_id 1 (snd (delete_customer 1 samples.ann_and_bob))) = Return VNone
  /\ fst (get_customer_by_id 2 (snd (delete_customer 1 samples.ann_and_bob)))
     = Return (dict (2%Z, samples.bob)).
Proof.
  destruct (delete_customer_then_get 1 samples.ann_and_bob eq_refl (fun _ => eq_refl))
    as (_ & Hgone & Hothers).
  split; [exact Hgone |]. rewrite (Hothers 2%Z); [reflexivity | discriminate].
Defined.

Lemma update_customer_then_get_witness :
  fst (get_customer_by_id 2 (snd (update_customer 2 None None (Some 0%Z) None
                                                   samples.ann_and_bob)))
  = fst (update_customer 2 None None (Some 0%Z) None samples.ann_and_bob).
Proof.
  refine (proj1 (update_customer_then_get 2 None None (Some 0%Z) None
                   samples.ann_and_bob samples.bob _ _ _)); reflexivity.
Defined.

Lemma get_customers_lists_every_row_witness :
  exists rows,
    fst (get_customers samples.ann_and_bob) = Return (VList (map dict rows))
    /\ NoDup rows
    /\ length rows = size (customers samples.ann_and_bob)
    /\ forall i f, (i, f) ∈ rows <-> customers samples.ann_and_bob !! i = Some f.
Proof.
  apply (get_customers_lists_every_row samples.ann_and_bob); reflexivity.
Defined.

Lemma customer_tools_without_pool_witness :
  list_customers samples.unreachable
  = (Return "No customers found in the database.", samples.unreachable)
  /\ get_customer 1 samples.unreachable
     = (Return "No customer found with ID: 1", samples.unreachable)
  /\ modify_customer 1 (Some "Anna") None None None samples.unreachable
     = (Return "Failed to update customer with ID: 1. Customer may not exist.",
        samples.unreachable).
Proof.
  pose proof (customer_tools_without_pool samples.unreachable eq_refl)
    as (Hlist & Hget & _ & Hmodify & _).
  split; [exact Hlist | split; [exact (Hget 1%Z) |]].
  by apply (Hmodify 1%Z (Some "Anna") None None None).
Defined.

Lemma list_customers_none_found_witness :
  exists rest,
    fst (list_customers samples.only_ann) = Return ("Customers:" +:+ str1 nl +:+ rest).
Proof.
  apply (proj2 (list_customers_none_found samples.only_ann));
    [reflexivity | reflexivity |].
  intros Hempty.
  assert (customers samples.only_ann !! 1%Z = None) as Hlookup
    by (rewrite Hempty; apply lookup_empty).
  discriminate Hlookup.
Defined.

Lemma get_customer_by_name_contains_witness :
  exists rows,
    fst (get_customer_by_name "BO" samples.ann_and_bob) = Return (VList (map dict rows))
    /\ forall i f,
         (i, f) ∈ rows
         <-> customers samples.ann_and_bob !! i = Some f
             /\ occurs_in ["b"; "o"] (lowered samples.ann_and_bob (db_helpers.name f))
                = true.
Proof.
  apply (get_customer_by_name_contains "BO" samples.ann_and_bob); reflexivity.
Defined.

Lemma get_customer_by_name_finds_literal_witness :
  exists rows,
    fst (get_customer_by_name "b_b" samples.ann_and_bob) = Return (VList (map dict rows))
    /\ (forall i f, (i, f) ∈ rows -> customers samples.ann_and_bob !! i = Some f)
    /\ (forall i f,
           customers samples.ann_and_bob !! i = Some f ->
           occurs_in ["b"; "_"; "b"] (lowered samples.ann_and_bob (db_helpers.name f))
           = true ->
           (i, f) ∈ rows).
Proof.
  apply (get_customer_by_name_finds_literal "b_b" samples.ann_and_bob); reflexivity.
Defined.

Lemma get_customer_by_name_percent_witness :
  exists rows,
    fst (get_customer_by_name "B%b" samples.ann_and_bob) = Return (VList (map dict rows))
    /\ forall i f,
         (i, f) ∈ rows
         <-> customers samples.ann_and_bob !! i = Some f
             /\ occurs_then ["b"] ["b"] (lowered samples.ann_and_bob (db_helpers.name f))
                = true.
Proof.
  apply (get_customer_by_name_percent "B" "b" samples.ann_and_bob); reflexivity.
Defined.

Lemma find_customers_by_name_answers_witness :
  exists rows,
    fst (get_customer_by_name "ob" samples.ann_and_bob) = Return (VList (map dict rows))
    /\ (rows = [] ->
        fst (find_customers_by_name "ob" samples.ann_and_bob)
        = Return ("No customers found with name containing: '" +:+ "ob" +:+ "'"))
    /\ (rows <> [] ->
        exists rest,
          fst (find_customers_by_name "ob" samples.ann_and_bob)
          = Return ("Found " +:+ pretty (length rows) +:+ " customer(s) matching '"
                    +:+ "ob" +:+ "':" +:+ str1 nl +:+ rest)).
Proof.
  apply (proj2 (find_customers_by_name_answers "ob" samples.ann_and_bob));
    [reflexivity | discriminate].
Defined.

Lemma make_nws_request_refuses_non_string_witness :
  make_nws_request samples.kansas VNone = Return VNone.
Proof. apply make_nws_request_refuses_non_string. discriminate. Defined.

Lemma get_forecast_unable_witness :
  get_forecast (samples.always (Return samples.not_found)) samples.here samples.there
  = Return "Unable to fetch forecast data for this location."
  /\ get_forecast (samples.always (Return (samples.ok (VDict [])))) samples.here
                  samples.there
     = Return "Unable to fetch forecast data for this location."
  /\ get_forecast
       (samples.always
          (Return (samples.ok (VDict [("properties", VDict [("forecast", VNone)])]))))
       samples.here samples.there
     = Return "Unable to fetch detailed forecast.".
Proof.
  split; [| split].
  - apply (proj1 (get_forecast_unable _ _ _)). reflexivity.
  - apply (proj1 (proj2 (get_forecast_unable _ _ _)) (samples.ok (VDict [])) (VDict []));
      reflexivity.
  - apply (proj2 (proj2 (get_forecast_unable _ _ _))
             (samples.ok (VDict [("properties", VDict [("forecast", VNone)])]))
             (VDict [("properties", VDict [("forecast", VNone)])]) VNone);
      try reflexivity; discriminate.
Defined.

Lemma get_forecast_propagates_witness :
  get_forecast (samples.always (Return (samples.ok (VList [VInt 1])))) samples.here
               samples.there
  = Raise TypeError.
Proof.
  apply (get_forecast_propagates _ _ _ (samples.ok (VList [VInt 1])) (VList [VInt 1]));
    reflexivity.
Defined.

Lemma get_alerts_without_features_witness :
  get_alerts (samples.always (Return samples.no_properties)) "KS"
  = Return "Unable to fetch alerts or no alerts found.".
Proof.
  apply (get_alerts_without_features _ _ samples.no_properties
           (VDict [("title", VStr "Not Found")])); try reflexivity.
  right. by eexists.
Defined.

Lemma get_alerts_on_scalar_witness :
  get_alerts (samples.always (Return (samples.ok (VInt 404)))) "KS" = Raise TypeError.
Proof.
  apply (get_alerts_on_scalar _ _ (samples.ok (VInt 404)) (VInt 404));
    try reflexivity; discriminate.
Defined.

Lemma get_alerts_lists_every_feature_witness :
  exists texts,
    get_alerts (samples.always (Return samples.two_alerts)) "KS"
    = Return (join separator texts)
    /\ length texts = 2%nat.
Proof.
  eexists.
  apply (get_alerts_lists_every_feature
           (samples.always (Return samples.two_alerts)) "KS" samples.two_alerts
           [("features", VList [samples.alert "Flood Warning" "Saline";
                                samples.alert "Tornado Watch" "Ellis"])]
           (samples.alert "Flood Warning" "Saline")
           [samples.alert "Tornado Watch" "Ellis"]);
    try reflexivity.
  repeat constructor; vm_compute; reflexivity.
Defined.

Lemma customer_text_witness :
  fst (get_customer 2 samples.ann_and_bob)
  = Return (String nl (each_on_its_line
                         ["Customer Details:"; "ID: 2"; "Name: Bob";
                          "Email: bob@example.org"; "Age: 41"; "Prefer Package: 2"])).
Proof.
  apply (proj1 (customer_text 2 samples.ann_and_bob samples.bob eq_refl eq_refl
                  eq_refl eq_refl eq_refl)).
Defined.

Lemma format_alert_text_witness :
  format_alert (VDict [("properties", VDict [("event", VStr "Flood Warning");
                                             ("instruction", VNone)])])
  = Return (String nl (each_on_its_line
                         ["Event: Flood Warning"; "Area: Unknown"; "Severity: Unknown";
                          "Description: No description available";
                          "Instructions: None"])).
Proof.
  refine (proj1 (format_alert_text
                   [("properties", VDict [("event", VStr "Flood Warning");
                                          ("instruction", VNone)])]
                   [("event", VStr "Flood Warning"); ("instruction", VNone)] _ _));
    [reflexivity | repeat constructor].
Defined.

Lemma format_period_text_witness :
  format_period (samples.period 1 "Today")
  = Return (String nl (each_on_its_line
                         ["Today:"; "Temperature: 61" +:+ degree +:+ "F";
                          "Wind: 5 mph NW"; "Forecast: Clear."])).
Proof.
  refine (proj2 (format_period_text (samples.period 1 "Today"))
            _ (VStr "Today") (VInt 61) (VStr "F") (VStr "5 mph") (VStr "NW")
            (VStr "Clear.") eq_refl _ _ _ _ _ _ _ _);
    try reflexivity.
  repeat constructor.
Defined.

Lemma truncate_json_summary_answers_witness :
  truncate_json_summary (VDict []) = Return "empty data"
  /\ truncate_json_summary (VList [VInt 1]) = Return "data summary unavailable"
  /\ truncate_json_summary (VDict [("type", VStr "FeatureCollection");
                                   ("features", VList [])])
     = Return "{'type': 'FeatureCollection', 'features': '[...] (0 items)'}"
  /\ summarize (VStr (samples.accents 50)) = VStr (samples.accents 50)
  /\ summarize (VStr (samples.accents 51)) = VStr (samples.accents 50 +:+ "...").
Proof.
  split; [| split; [| split; [| split]]].
  - apply (proj1 (proj2 (truncate_json_summary_answers (VDict [])))). reflexivity.
  - apply (proj1 (proj2 (proj2 (truncate_json_summary_answers (VList [VInt 1])))));
      [reflexivity | discriminate].
  - refine (proj1 (proj2 (proj2 (proj2 (truncate_json_summary_answers _)))) _
              eq_refl _ _); [discriminate |].
    cbn [map fst]. apply NoDup_cons. split; [| apply NoDup_singleton].
    intros Hin. apply list_elem_of_singleton in Hin. discriminate Hin.
  - apply (proj2 (proj2 (proj2 (proj2 (proj2 (proj2 (proj2
             (truncate_json_summary_answers VNone)))))))).
    vm_compute. lia.
  - destruct (proj2 (proj2 (proj2 (proj2 (proj2 (proj2 (proj2
                (truncate_json_summary_answers VNone)))))))
                (samples.accents 51)) as [_ Hlong].
    destruct Hlong as (head & rest & _ & Hchars & _ & ->); [vm_compute; lia |].
    rewrite <- (characters_concat head), Hchars. reflexivity.
Defined.

Lemma writing_tools_text_witness :
  fst (create_customer (Some "Cy") (Some "cy@example.org") None (Some 2%Z)
                       samples.ann_and_bob)
  = Return (String nl (each_on_its_line
                         ["Customer created successfully:"; "ID: 3"; "Name: Cy";
                          "Email: cy@example.org"; "Age: None"; "Prefer Package: 2"]))
  /\ fst (modify_customer 1 None None (Some 33%Z) None samples.ann_and_bob)
     = Return (String nl (each_on_its_line
                            ["Customer updated successfully:"; "ID: 1"; "Name: Ann";
                             "Email: ann@example.org"; "Age: 33";
                             "Prefer Package: None"])).
Proof.
  pose proof (writing_tools_text samples.ann_and_bob eq_refl (fun _ => eq_refl))
    as [Hcreate Hmodify].
  split.
  - apply (Hcreate "Cy" "cy@example.org" None (Some 2%Z)); try reflexivity;
      discriminate.
  - apply (Hmodify 1%Z None None (Some 33%Z) None samples.ann); reflexivity.
Defined.

Lemma update_customer_keeps_optional_fields_witness :
  exists after,
    customers (snd (update_customer 2 (Some "Robert") None None None
                                    samples.ann_and_bob)) !! 2%Z = Some after
    /\ (is_Some (age samples.bob) -> is_Some (age after))
    /\ (is_Some (prefer_package samples.bob) -> is_Some (prefer_package after)).
Proof.
  apply (update_customer_keeps_optional_fields 2 (Some "Robert") None None None
           samples.ann_and_bob samples.bob).
  reflexivity.
Defined.
